(** * SupraHedge: the vault contracts and the dApp page actions

    A shallow embedding of
    - [SupraHedgeVault] (the pause-aware Phase-0 vault: storage, modifiers,
      deposit / withdraw / receive and the admin functions), run against
      callers and recipients that may call back into it,
    - the earlier MVP stub of the same contract (contracts/SupraHedgeVault.sol),
    - the page's [readPublicEnv], its reads effect, and the [onDeposit] and
      [onWithdraw] actions, run against an RPC node and a wallet that may
      fail,
    - the layout's runtime injection of the public variables, the page's
      constants and its wallet hook,
    followed by the properties C1 to C10 stated about them and further
    properties of the same code. *)

From Stdlib Require Import ZArith Lia Bool.
From stdpp Require Import base option gmap strings list fin_maps.

Local Open Scope Z_scope.

(** ** Solidity execution model

    A transaction body is a state transformer that either reverts (the
    storage and the log are rolled back by whoever runs it) or returns a
    value, the new storage and the events it emitted.  [uint256] is [Z] with
    the compiler's checked arithmetic (pragma ^0.8.20): an overflowing [+=]
    or an underflowing [-=] is a [Panic(0x11)], not a wrap-around. *)
Module EVM.

Abbreviation address := Z (only parsing).

Definition MAX_UINT256 : Z := 2 ^ 256 - 1.

Inductive error : Type :=
  | Require (reason : string)   (* require(cond, reason) failed *)
  | Panic (code : Z).           (* compiler-inserted check failed *)

Inductive result (A : Type) : Type :=
  | Ok (a : A)
  | Revert (e : error).
Arguments Ok {A} a.
Arguments Revert {A} e.

Section Monad.
Context {St Ev : Type}.

Definition M (A : Type) : Type := St → result (A * St * list Ev).

Definition ret {A} (a : A) : M A := λ s, Ok (a, s, []).

Definition bind {A B} (m : M A) (k : A → M B) : M B :=
  λ s, match m s with
         | Revert e => Revert e
         | Ok (a, s1, l1) =>
             match k a s1 with
             | Revert e => Revert e
             | Ok (b, s2, l2) => Ok (b, s2, l1 ++ l2)
             end
         end.

Definition gets {A} (f : St → A) : M A := λ s, Ok (f s, s, []).
Definition modify (f : St → St) : M unit := λ s, Ok (tt, f s, []).
Definition emit (e : Ev) : M unit := λ s, Ok (tt, s, [e]).
Definition revert {A} (e : error) : M A := λ _, Revert e.

Definition require (cond : bool) (reason : string) : M unit :=
  if cond then ret tt else revert (Require reason).

(** [a + b] and [a - b] on uint256 under checked arithmetic. *)
Definition checked_add (a b : Z) : M Z :=
  if a + b <=? MAX_UINT256 then ret (a + b) else revert (Panic 17).
Definition checked_sub (a b : Z) : M Z :=
  if b <=? a then ret (a - b) else revert (Panic 17).

(** A caller that catches the failure of the call it makes: the callee's
    effects are rolled back and the caller goes on. *)
Definition try_call (m : M unit) : M unit :=
  λ s, match m s with
         | Ok r => Ok r
         | Revert _ => Ok (tt, s, [])
         end.

(** What a transaction leaves behind: the new storage, or the old one
    when it reverted. *)
Definition storage_after {A} (m : M A) (s : St) : St :=
  match m s with
    | Ok (_, s', _) => s'
    | Revert _ => s
    end.

Definition reverts {A} (m : M A) (s : St) : Prop :=
    ∃ e, m s = Revert e.
End Monad.

Arguments M : clear implicits.

Declare Scope evm_scope.
Delimit Scope evm_scope with evm.
Notation "x <- m ;; k" := (bind m (λ x, k))
  (at level 100, m at next level, k at level 200, right associativity)
  : evm_scope.
Notation "m ;; k" := (bind m (λ _, k))
  (at level 100, k at level 200, right associativity) : evm_scope.

(** [mapping(address => uint256)]: every key reads 0 until written. *)
Definition mapping_get (m : gmap Z Z) (a : address) : Z := default 0 (m !! a).

(** The sum of a ledger over every address (finitely many were written). *)
Definition mapping_sum (m : gmap Z Z) : Z :=
  map_fold (λ _ v acc, v + acc) 0 m.

End EVM.

(** ** SupraHedgeVault, the pause-aware Phase-0 vault *)
Module Vault.
Import EVM.
Local Open Scope evm_scope.

Inductive Event : Type :=
  | Deposit (user : address) (amount : Z)
  | Withdraw (user : address) (amount : Z)
  | Paused (paused : bool)
  | GuardianUpdated (guardian : address)
  | OwnerUpdated (newOwner : address).

Record Storage : Type := mkStorage {
  owner : address;
  guardian : address;
  paused : bool;
  balances : gmap Z Z;
  totalAssets : Z
}.

Definition set_owner (o : address) (s : Storage) : Storage :=
  mkStorage o (guardian s) (paused s) (balances s) (totalAssets s).
Definition set_guardian (g : address) (s : Storage) : Storage :=
  mkStorage (owner s) g (paused s) (balances s) (totalAssets s).
Definition set_paused (b : bool) (s : Storage) : Storage :=
  mkStorage (owner s) (guardian s) b (balances s) (totalAssets s).
Definition set_balance (a : address) (v : Z) (s : Storage) : Storage :=
  mkStorage (owner s) (guardian s) (paused s) (<[a := v]> (balances s))
            (totalAssets s).
Definition set_totalAssets (t : Z) (s : Storage) : Storage :=
  mkStorage (owner s) (guardian s) (paused s) (balances s) t.

(** [balances[a]] *)
Definition balanceOf (s : Storage) (a : address) : Z :=
  mapping_get (balances s) a.

Abbreviation Tx := (M Storage Event).

(** *** Modifiers *)

Definition onlyOwner {A} (msg_sender : address) (body : Tx A) : Tx A :=
  o <- gets owner ;;
  require (msg_sender =? o) "NOT_OWNER" ;;
  body.

Definition onlyGuardianOrOwner {A} (msg_sender : address) (body : Tx A)
  : Tx A :=
  o <- gets owner ;;
  g <- gets guardian ;;
  require ((msg_sender =? o) || (msg_sender =? g)) "NOT_AUTHORIZED" ;;
  body.

Definition notPaused {A} (body : Tx A) : Tx A :=
  p <- gets paused ;;
  require (negb p) "VAULT_PAUSED" ;;
  body.

(** *** Constructor *)

Definition constructor (msg_sender _guardian : address) : Storage :=
  {| owner := msg_sender; guardian := _guardian; paused := false;
     balances := ∅; totalAssets := 0 |}.

(** *** Deposit / withdraw *)

Definition deposit_body (msg_sender : address) (msg_value : Z) : Tx unit :=
  require (0 <? msg_value) "ZERO_DEPOSIT" ;;
  b <- gets (λ s, balanceOf s msg_sender) ;;
  b' <- checked_add b msg_value ;;
  modify (set_balance msg_sender b') ;;
  t <- gets totalAssets ;;
  t' <- checked_add t msg_value ;;
  modify (set_totalAssets t') ;;
  emit (Deposit msg_sender msg_value).

Definition deposit (msg_sender : address) (msg_value : Z) : Tx unit :=
  notPaused (deposit_body msg_sender msg_value).

(** [send] stands for [msg.sender.call{value: amount}("")]: it hands control
    to the recipient and returns the call's [ok]. *)
Definition withdraw_body (msg_sender : address) (amount : Z) (send : Tx bool)
  : Tx unit :=
  require (0 <? amount) "ZERO_WITHDRAW" ;;
  b <- gets (λ s, balanceOf s msg_sender) ;;
  require (amount <=? b) "INSUFFICIENT_BALANCE" ;;
  b' <- checked_sub b amount ;;
  modify (set_balance msg_sender b') ;;
  t <- gets totalAssets ;;
  t' <- checked_sub t amount ;;
  modify (set_totalAssets t') ;;
  ok <- send ;;
  require ok "ETH_TRANSFER_FAILED" ;;
  emit (Withdraw msg_sender amount).

Definition withdraw (msg_sender : address) (amount : Z) (send : Tx bool)
  : Tx unit :=
  notPaused (withdraw_body msg_sender amount send).

Definition receive (msg_sender : address) (msg_value : Z) : Tx unit :=
  deposit msg_sender msg_value.

(** *** Admin / safety *)

Definition setPaused (msg_sender : address) (_paused : bool) : Tx unit :=
  onlyGuardianOrOwner msg_sender (
    modify (set_paused _paused) ;;
    emit (Paused _paused)).

Definition setGuardian (msg_sender : address) (newGuardian : address)
  : Tx unit :=
  onlyOwner msg_sender (
    require (negb (newGuardian =? 0)) "ZERO_ADDRESS" ;;
    modify (set_guardian newGuardian) ;;
    emit (GuardianUpdated newGuardian)).

Definition setOwner (msg_sender : address) (newOwner : address) : Tx unit :=
  onlyOwner msg_sender (
    require (negb (newOwner =? 0)) "ZERO_ADDRESS" ;;
    modify (set_owner newOwner) ;;
    emit (OwnerUpdated newOwner)).

(** *** View helpers *)

Definition assets (s : Storage) : Z := totalAssets s.

(** *** Calls from the outside

    A call names the function and its arguments.  A [withdraw] also fixes
    what the recipient of the ether does when control reaches it: it rejects
    the transfer (its code reverts or runs out of gas, so [ok] is false), or
    it accepts it, possibly after calling back into the vault.  Each of those
    nested calls comes from some sender and is caught by its caller when it
    reverts. *)
Inductive call : Type :=
  | call_deposit (msg_value : Z)
  | call_receive (msg_value : Z)
  | call_withdraw (amount : Z) (to : recipient)
  | call_setPaused (_paused : bool)
  | call_setGuardian (newGuardian : address)
  | call_setOwner (newOwner : address)
with recipient : Type :=
  | Rejects
  | Accepts (reentrant : calls)
with calls : Type :=
  | no_calls
  | and_then (msg_sender : address) (c : call) (rest : calls).

Scheme call_mut := Induction for call Sort Prop
  with recipient_mut := Induction for recipient Sort Prop
  with calls_mut := Induction for calls Sort Prop.
Combined Scheme call_tree_ind from call_mut, recipient_mut, calls_mut.

Fixpoint exec (c : call) (msg_sender : address) : Tx unit :=
  match c with
  | call_deposit v => deposit msg_sender v
  | call_receive v => receive msg_sender v
  | call_withdraw amount to => withdraw msg_sender amount (send to)
  | call_setPaused b => setPaused msg_sender b
  | call_setGuardian g => setGuardian msg_sender g
  | call_setOwner o => setOwner msg_sender o
  end
with send (to : recipient) : Tx bool :=
  match to with
  | Rejects => ret false
  | Accepts cs => run cs ;; ret true
  end
with run (cs : calls) : Tx unit :=
  match cs with
  | no_calls => ret tt
  | and_then a c rest => try_call (exec c a) ;; run rest
  end.

(** The storage a successful call leads to. *)
Definition step (s : Storage) (a : address) (c : call) (s' : Storage) : Prop :=
  ∃ log, exec c a s = Ok (tt, s', log).

(** The states of a deployed vault: the constructor's, and whatever a
    successful call makes of a state already reached. *)
Inductive reachable : Storage → Prop :=
  | reachable_constructor deployer _guardian :
      reachable (constructor deployer _guardian)
  | reachable_step s a c s' :
      reachable s → step s a c s' → reachable s'.

(** The ledger's accounting: [totalAssets] is the sum of the balances, and
    every balance is a uint256. *)
Definition balances_sum (s : Storage) : Z := mapping_sum (balances s).

Definition ledger_ok (s : Storage) : Prop :=
  totalAssets s = balances_sum s ∧
  map_Forall (λ _ v, 0 ≤ v ≤ MAX_UINT256) (balances s).

(** The storage with [v] added to (taken from) both [balances[a]] and
    [totalAssets], everything else as it was. *)
Definition credited (a : address) (v : Z) (s : Storage) : Storage :=
  {| owner := owner s; guardian := guardian s; paused := paused s;
     balances := <[a := balanceOf s a + v]> (balances s);
     totalAssets := totalAssets s + v |}.

Definition debited (a : address) (m : Z) (s : Storage) : Storage :=
  {| owner := owner s; guardian := guardian s; paused := paused s;
     balances := <[a := balanceOf s a - m]> (balances s);
     totalAssets := totalAssets s - m |}.

(** A vault that holds 5 wei for address 7 and nothing else, and the same
    vault paused. *)
Definition vault_with_5 : Storage :=
  {| owner := 1; guardian := 2; paused := false;
     balances := {[ 7 := 5 ]}; totalAssets := 5 |}.

Definition paused_vault_with_5 : Storage := set_paused true vault_with_5.

End Vault.

(** ** The MVP stub of the vault (contracts/SupraHedgeVault.sol)

    No pause flag, no guardian and no [totalAssets]: an owner and the
    balances ledger.  Its [receive] calls [deposit()] the way the Phase-0
    contract does. *)
Module VaultMVP.
Import EVM.
Local Open Scope evm_scope.

Definition NAME : string := "SupraHedge Vault MVP".

Inductive Event : Type :=
  | Deposit (user : address) (amount : Z)
  | Withdraw (user : address) (amount : Z)
  | OwnerChanged (oldOwner newOwner : address).

Record Storage : Type := mkStorage {
  owner : address;
  balances : gmap Z Z
}.

Definition set_owner (o : address) (s : Storage) : Storage :=
  mkStorage o (balances s).
Definition set_balance (a : address) (v : Z) (s : Storage) : Storage :=
  mkStorage (owner s) (<[a := v]> (balances s)).

Definition balanceOf (s : Storage) (a : address) : Z :=
  mapping_get (balances s) a.

Abbreviation Tx := (M Storage Event).

Definition onlyOwner {A} (msg_sender : address) (body : Tx A) : Tx A :=
  o <- gets owner ;;
  require (msg_sender =? o) "NOT_OWNER" ;;
  body.

Definition constructor (msg_sender : address) : Storage :=
  {| owner := msg_sender; balances := ∅ |}.

Definition setOwner (msg_sender : address) (newOwner : address) : Tx unit :=
  onlyOwner msg_sender (
    require (negb (newOwner =? 0)) "ZERO_ADDR" ;;
    o <- gets owner ;;
    emit (OwnerChanged o newOwner) ;;
    modify (set_owner newOwner)).

Definition deposit (msg_sender : address) (msg_value : Z) : Tx unit :=
  require (0 <? msg_value) "ZERO" ;;
  b <- gets (λ s, balanceOf s msg_sender) ;;
  b' <- checked_add b msg_value ;;
  modify (set_balance msg_sender b') ;;
  emit (Deposit msg_sender msg_value).

Definition withdraw (msg_sender : address) (amount : Z) (send : Tx bool)
  : Tx unit :=
  require (0 <? amount) "ZERO" ;;
  b <- gets (λ s, balanceOf s msg_sender) ;;
  require (amount <=? b) "INSUFFICIENT" ;;
  b' <- checked_sub b amount ;;
  modify (set_balance msg_sender b') ;;
  ok <- send ;;
  require ok "SEND_FAIL" ;;
  emit (Withdraw msg_sender amount).

Definition receive (msg_sender : address) (msg_value : Z) : Tx unit :=
  deposit msg_sender msg_value.

End VaultMVP.

(** ** The dApp page (app page component) *)
Module Page.

(** *** Safe env access: [readPublicEnv] *)

(** The JavaScript values a global can hold, as far as [typeof] and
    truthiness tell them apart. *)
Inductive jsval : Type :=
  | JUndefined
  | JNull
  | JBoolean (b : bool)
  | JNumber (n : Z)
  | JString (s : string)
  | JObject
  | JFunction.

(** Reading a property either yields a value or throws (a getter may). *)
Inductive access : Type :=
  | Value (v : jsval)
  | Throws.

(** [Record<string, string | undefined>] *)
Abbreviation EnvRecord := (gmap string (option string)).

(** [rec[key]]: a missing entry reads [undefined]. *)
Definition record_get (r : EnvRecord) (key : string) : option string :=
  mjoin (r !! key).

(** interface ProcessEnv *)
Record ProcessEnv : Type := { env : option EnvRecord }.

(** interface GlobalEnv: the two optional injection records and the index
    signature [[key: string]: unknown]. *)
Record GlobalEnv : Type := {
  __ENV__ : option EnvRecord;
  __NEXT_PUBLIC__ : option EnvRecord;
  globals : string → access
}.

(** What the function can see: [process] (absent in a browser) and
    [globalThis]. *)
Record Host : Type := {
  process : option ProcessEnv;
  globalThis : GlobalEnv
}.

(** [g[key]] on [globalThis]: the two injection records are properties of
    the same object. *)
Definition global_get (g : GlobalEnv) (key : string) : access :=
  if String.eqb key "__ENV__" then
    Value (match __ENV__ g with Some _ => JObject | None => JUndefined end)
  else if String.eqb key "__NEXT_PUBLIC__" then
    Value (match __NEXT_PUBLIC__ g with
           | Some _ => JObject
           | None => JUndefined
           end)
  else globals g key.

(** A block of statements inside [try]: it returns from the function with a
    value, falls through to the statement after it, or throws. *)
Inductive completion (A : Type) : Type :=
  | Returns (a : A)
  | FallsThrough
  | Thrown.
Arguments Returns {A} a.
Arguments FallsThrough {A}.
Arguments Thrown {A}.

(** [try { block } catch { }]: a throw is swallowed and control goes on
    after the statement. *)
Definition try_catch {A} (block : completion A) : option A :=
  match block with
  | Returns a => Some a
  | FallsThrough => None
  | Thrown => None
  end.

(** [typeof v === 'string' && v.length] for [v : string | undefined] *)
Definition string_with_length (v : option string) : bool :=
  match v with
  | Some s => negb (String.length s =? 0)%nat
  | None => false
  end.

Definition truthy (v : jsval) : bool :=
  match v with
  | JUndefined | JNull => false
  | JBoolean b => b
  | JNumber n => negb (n =? 0)
  | JString s => negb (String.length s =? 0)%nat
  | JObject | JFunction => true
  end.

Definition typeof (v : jsval) : string :=
  match v with
  | JUndefined => "undefined"
  | JNull => "object"
  | JBoolean _ => "boolean"
  | JNumber _ => "number"
  | JString _ => "string"
  | JObject => "object"
  | JFunction => "function"
  end.

(** [x?.[key]] on an optional record *)
Definition optional_get (r : option EnvRecord) (key : string) : option string :=
  match r with
  | Some r => record_get r key
  | None => None
  end.

(** 1) Build-time inlined by Next.js (safe-guarded) *)
Definition read_process_env (h : Host) (key : string) : completion string :=
  match process h with
  | Some proc =>
      match env proc with
      | Some e =>
          let v := record_get e key in
          if string_with_length v then
            match v with Some s => Returns s | None => FallsThrough end
          else FallsThrough
      | None => FallsThrough
      end
  | None => FallsThrough
  end.

(** 2) Optional runtime injection (window.__ENV__ or globals) *)
Definition read_runtime_env (h : Host) (key : string) : completion string :=
  let g := globalThis h in
  let envValue := optional_get (__ENV__ g) key in
  if string_with_length envValue then
    match envValue with Some s => Returns s | None => FallsThrough end
  else
    let nextPublicValue := optional_get (__NEXT_PUBLIC__ g) key in
    if string_with_length nextPublicValue then
      match nextPublicValue with Some s => Returns s | None => FallsThrough end
    else
      match global_get g key with
      | Throws => Thrown
      | Value directValue =>
          if truthy directValue && String.eqb (typeof directValue) "string"
          then match directValue with
               | JString s =>
                   if negb (String.length s =? 0)%nat then Returns s
                   else FallsThrough
               | _ => FallsThrough
               end
          else FallsThrough
      end.

(** [string | undefined]: [None] is [undefined]. *)
Definition readPublicEnv (h : Host) (key : string) : option string :=
  match try_catch (read_process_env h key) with
  | Some v => Some v
  | None =>
      match try_catch (read_runtime_env h key) with
      | Some v => Some v
      | None => None
      end
  end.

(** The four places the value may come from, in the order they are named,
    and the first non-empty string among them. *)
Definition candidates (h : Host) (key : string) : list access :=
  [ match process h with
    | Some proc =>
        match env proc with
        | Some e =>
            match record_get e key with
            | Some s => Value (JString s)
            | None => Value JUndefined
            end
        | None => Value JUndefined
        end
    | None => Value JUndefined
    end;
    match optional_get (__ENV__ (globalThis h)) key with
    | Some s => Value (JString s)
    | None => Value JUndefined
    end;
    match optional_get (__NEXT_PUBLIC__ (globalThis h)) key with
    | Some s => Value (JString s)
    | None => Value JUndefined
    end;
    global_get (globalThis h) key ].

Definition nonempty_string (a : access) : option string :=
  match a with
  | Value (JString s) => if (String.length s =? 0)%nat then None else Some s
  | _ => None
  end.

Fixpoint first_nonempty_string (l : list access) : option string :=
  match l with
  | [] => None
  | a :: rest =>
      match nonempty_string a with
      | Some s => Some s
      | None => first_nonempty_string rest
      end
  end.

(** *** Contract requests and the page's actions *)

Inductive ABI : Type := abiVault | abiErc20.

Inductive arg : Type :=
  | Address (a : string)
  | Uint256 (n : Z).

(** The object handed to [readContract] / [writeContract]. *)
Record ContractCall : Type := {
  address : string;
  abi : ABI;
  functionName : string;
  args : list arg
}.

(** What an action sends out, in the order it sends it. *)
Inductive Request : Type :=
  | readContract (c : ContractCall)
  | writeContract (account : string) (c : ContractCall).

(** The module constants read from the environment at load time. *)
Record Config : Type := {
  VAULT_ADDR : string;
  USDC_ADDR : string
}.

(** How the outside answers: viem's [parseUnits] (it throws on a malformed
    amount), the RPC node behind [publicClient.readContract] and the wallet
    behind [wallet.writeContract] (the user may decline).  [None] and [false]
    stand for a throw or a rejected promise. *)
Record World : Type := {
  parseUnits : string → Z → option Z;
  read_result : ContractCall → option Z;
  write_result : string → ContractCall → bool
}.

(** The component state ([useState]) and the wallet hook's; [wallet] tells
    whether a wallet client is set. *)
Record State : Type := {
  account_address : option string;
  wallet : bool;
  decimals : Z;
  tvl : option Z;
  userShares : option Z;
  usdcBal : option Z;
  amount : string;
  withdrawPct : Z;
  busy : bool
}.

Definition with_busy (b : bool) (s : State) : State :=
  {| account_address := account_address s; wallet := wallet s;
     decimals := decimals s; tvl := tvl s; userShares := userShares s;
     usdcBal := usdcBal s; amount := amount s; withdrawPct := withdrawPct s;
     busy := b |}.

Definition nonempty (s : string) : bool := negb (String.length s =? 0)%nat.

(** [Boolean(VAULT_ADDR && USDC_ADDR)] *)
Definition hasConfig (cfg : Config) : bool :=
  nonempty (VAULT_ADDR cfg) && nonempty (USDC_ADDR cfg).

(** [!!address] *)
Definition connected (s : State) : bool :=
  match account_address s with
  | Some a => nonempty a
  | None => false
  end.

(** Truthiness of [bigint | undefined] *)
Definition truthy_bigint (x : option Z) : bool :=
  match x with
  | Some n => negb (n =? 0)
  | None => false
  end.

(** An async action: it ends normally or with an exception, and in both
    cases the state updates and the requests made so far stand. *)
Inductive outcome (A : Type) : Type :=
  | Done (a : A)
  | Failed.
Arguments Done {A} a.
Arguments Failed {A}.

Definition Act (A : Type) : Type := State → outcome A * State * list Request.

Definition ret {A} (a : A) : Act A := λ s, (Done a, s, []).

Definition throw {A} : Act A := λ s, (Failed, s, []).

Definition bind {A B} (m : Act A) (k : A → Act B) : Act B :=
  λ s, match m s with
       | (Failed, s1, t1) => (Failed, s1, t1)
       | (Done a, s1, t1) =>
           match k a s1 with
           | (o, s2, t2) => (o, s2, t1 ++ t2)
           end
       end.

(** [try { body } finally { fin }] *)
Definition try_finally {A} (body : Act A) (fin : Act unit) : Act A :=
  λ s, match body s with
       | (o, s1, t1) =>
           match fin s1 with
           | (Done _, s2, t2) => (o, s2, t1 ++ t2)
           | (Failed, s2, t2) => (Failed, s2, t1 ++ t2)
           end
       end.

Definition setBusy (b : bool) : Act unit := λ s, (Done tt, with_busy b s, []).

Definition of_option {A} (x : option A) : Act A :=
  match x with
  | Some a => ret a
  | None => throw
  end.

(** [await publicClient.readContract(c)] *)
Definition await_read (w : World) (c : ContractCall) : Act Z :=
  λ s, match read_result w c with
       | Some v => (Done v, s, [readContract c])
       | None => (Failed, s, [readContract c])
       end.

(** [await wallet.writeContract({account, ...c, chain: null})] *)
Definition await_write (w : World) (account : string) (c : ContractCall)
  : Act unit :=
  λ s, if write_result w account c
       then (Done tt, s, [writeContract account c])
       else (Failed, s, [writeContract account c]).

Declare Scope act_scope.
Delimit Scope act_scope with act.
Notation "x <- m ;; k" := (bind m (λ x, k))
  (at level 100, m at next level, k at level 200, right associativity)
  : act_scope.
Notation "m ;; k" := (bind m (λ _, k))
  (at level 100, k at level 200, right associativity) : act_scope.
Local Open Scope act_scope.

Definition allowance_call (cfg : Config) (account : string) : ContractCall :=
  {| address := USDC_ADDR cfg; abi := abiErc20; functionName := "allowance";
     args := [Address account; Address (VAULT_ADDR cfg)] |}.

Definition approve_call (cfg : Config) (assets : Z) : ContractCall :=
  {| address := USDC_ADDR cfg; abi := abiErc20; functionName := "approve";
     args := [Address (VAULT_ADDR cfg); Uint256 assets] |}.

Definition deposit_call (cfg : Config) (assets : Z) (account : string)
  : ContractCall :=
  {| address := VAULT_ADDR cfg; abi := abiVault; functionName := "deposit";
     args := [Uint256 assets; Address account] |}.

Definition redeem_call (cfg : Config) (shares : Z) (account : string)
  : ContractCall :=
  {| address := VAULT_ADDR cfg; abi := abiVault; functionName := "redeem";
     args := [Uint256 shares; Address account; Address account] |}.

Definition decimals_call (cfg : Config) : ContractCall :=
  {| address := USDC_ADDR cfg; abi := abiErc20; functionName := "decimals";
     args := [] |}.

Definition totalAssets_call (cfg : Config) : ContractCall :=
  {| address := VAULT_ADDR cfg; abi := abiVault;
     functionName := "totalAssets"; args := [] |}.

Definition balanceOf_call (token : string) (abi : ABI) (account : string)
  : ContractCall :=
  {| address := token; abi := abi; functionName := "balanceOf";
     args := [Address account] |}.

Definition setDecimals (d : Z) : Act unit :=
  λ s, (Done tt,
        {| account_address := account_address s; wallet := wallet s;
           decimals := d; tvl := tvl s; userShares := userShares s;
           usdcBal := usdcBal s; amount := amount s;
           withdrawPct := withdrawPct s; busy := busy s |}, []).

Definition setTvl (t : option Z) : Act unit :=
  λ s, (Done tt,
        {| account_address := account_address s; wallet := wallet s;
           decimals := decimals s; tvl := t; userShares := userShares s;
           usdcBal := usdcBal s; amount := amount s;
           withdrawPct := withdrawPct s; busy := busy s |}, []).

Definition setUsdcBal (b : option Z) : Act unit :=
  λ s, (Done tt,
        {| account_address := account_address s; wallet := wallet s;
           decimals := decimals s; tvl := tvl s; userShares := userShares s;
           usdcBal := b; amount := amount s;
           withdrawPct := withdrawPct s; busy := busy s |}, []).

Definition setUserShares (n : option Z) : Act unit :=
  λ s, (Done tt,
        {| account_address := account_address s; wallet := wallet s;
           decimals := decimals s; tvl := tvl s; userShares := n;
           usdcBal := usdcBal s; amount := amount s;
           withdrawPct := withdrawPct s; busy := busy s |}, []).

(** [try { body } catch (e) { console.warn(...) }] *)
Definition try_warn (body : Act unit) : Act unit :=
  λ s, match body s with
       | (Done _, s1, t1) => (Done tt, s1, t1)
       | (Failed, s1, t1) => (Done tt, s1, t1)
       end.

(** [await Promise.all([readContract(c1), readContract(c2)])]: both requests
    go out; the await fails if either does. *)
Definition await_both (w : World) (c1 c2 : ContractCall) : Act (Z * Z) :=
  λ s, match read_result w c1, read_result w c2 with
       | Some v1, Some v2 =>
           (Done (v1, v2), s, [readContract c1; readContract c2])
       | _, _ => (Failed, s, [readContract c1; readContract c2])
       end.

(** The state a fresh mount starts from. *)
Definition initial_state : State :=
  {| account_address := None; wallet := false; decimals := 6; tvl := None;
     userShares := None; usdcBal := None; amount := "1000";
     withdrawPct := 25; busy := false |}.

(** The reads effect, run on mount and whenever [address] changes; it is the
    only place that sets [userShares]. *)
Definition readsEffect (w : World) (cfg : Config) (r : State) : Act unit :=
  if negb (hasConfig cfg) then ret tt
  else
    try_warn (
      dec <- await_read w (decimals_call cfg) ;;
      setDecimals dec ;;
      ta <- await_read w (totalAssets_call cfg) ;;
      setTvl (Some ta) ;;
      if connected r then
        match account_address r with
        | Some account =>
            both <- await_both w
                      (balanceOf_call (USDC_ADDR cfg) abiErc20 account)
                      (balanceOf_call (VAULT_ADDR cfg) abiVault account) ;;
            setUsdcBal (Some (fst both)) ;;
            setUserShares (Some (snd both))
        | None => ret tt
        end
      else
        setUsdcBal None ;;
        setUserShares None).

(** [amount || '0'] *)
Definition amount_or_zero (r : State) : string :=
  if nonempty (amount r) then amount r else "0".

(** The callback closes over the render [r]; the guard narrows [address]
    (and, in [onWithdraw], [userShares]) to defined values. *)
Definition onDeposit (w : World) (cfg : Config) (r : State) : Act unit :=
  if negb (wallet r) || negb (connected r) || negb (hasConfig cfg) then ret tt
  else
    match account_address r with
    | None => ret tt
    | Some account =>
        setBusy true ;;
        try_finally (
          assets <- of_option
            (parseUnits w (amount_or_zero r) (decimals r)) ;;
          allowance <- await_read w (allowance_call cfg account) ;;
          (if allowance <? assets
           then await_write w account (approve_call cfg assets)
           else ret tt) ;;
          await_write w account (deposit_call cfg assets account))
        (setBusy false)
    end.

Definition onWithdraw (w : World) (cfg : Config) (r : State) : Act unit :=
  if negb (wallet r) || negb (connected r) || negb (hasConfig cfg)
     || negb (truthy_bigint (userShares r)) then ret tt
  else
    match account_address r, userShares r with
    | Some account, Some userShares =>
        setBusy true ;;
        try_finally (
          let shares := Z.quot (userShares * withdrawPct r) 100 in
          await_write w account (redeem_call cfg shares account))
        (setBusy false)
    | _, _ => ret tt
    end.

(** The requests an action sends when run from state [s]. *)
Definition requests {A} (m : Act A) (s : State) : list Request :=
  snd (m s).

(** *** Sample hosts, worlds and renders *)

Definition no_globals : string → access := λ _, Value JUndefined.

(** A browser before any injection: no [process], no records. *)
Definition bare_browser : Host :=
  {| process := None;
     globalThis := {| __ENV__ := None; __NEXT_PUBLIC__ := None;
                      globals := no_globals |} |}.

(** The host after the dev test's [g.__ENV__ = { TEST_KEY: 'ok' }], under
    Node with an environment that does not set the key. *)
Definition dev_test_host : Host :=
  {| process := Some {| env := Some {[ "NODE_ENV" := Some "development" ]} |};
     globalThis := {| __ENV__ := Some {[ "TEST_KEY" := Some "ok" ]};
                      __NEXT_PUBLIC__ := None;
                      globals := no_globals |} |}.

Definition sample_config : Config :=
  {| VAULT_ADDR := "0xvault"; USDC_ADDR := "0xusdc" |}.

(** A connected user holding 1050 shares, slider at 25%, amount "1000". *)
Definition sample_render : State :=
  {| account_address := Some "0xabc"; wallet := true; decimals := 6;
     tvl := Some 5000; userShares := Some 1050; usdcBal := Some 2000;
     amount := "1000"; withdrawPct := 25; busy := false |}.

(** A world where "1000" with 6 decimals parses to 10^9, the vault's
    allowance is 5, and the wallet signs everything. *)
Definition sample_world : World :=
  {| parseUnits := λ _ _, Some 1000000000;
     read_result := λ _, Some 5;
     write_result := λ _ _, true |}.



End Page.

(** ** Entering a function that is not payable

    [withdraw] is declared without [payable]: the contract turns a call that
    carries ether away before the modifiers and the body run, reverting
    without a reason. *)
Module VaultEntry.
Import EVM Vault.

Inductive entry_result : Type :=
  | Entered (r : result (unit * Storage * list Event))
  | NotPayable.

Definition withdraw_entry (msg_value : Z) (msg_sender : address) (amount : Z)
    (to : recipient) (s : Storage) : entry_result :=
  if msg_value =? 0 then Entered (withdraw msg_sender amount (send to) s)
  else NotPayable.

Definition entry_reverts (r : entry_result) : Prop :=
  match r with
  | NotPayable => True
  | Entered r => ∃ e, r = Revert e
  end.

End VaultEntry.

(** ** The vault's event log as a journal, and who takes part in a call *)
Module VaultJournal.
Import EVM Vault.

(** What an event says happened to [b]'s balance, and to the pool. *)
Definition event_flow (b : address) (e : Event) : Z :=
  match e with
  | Deposit user amount => if user =? b then amount else 0
  | Withdraw user amount => if user =? b then - amount else 0
  | Paused _ | GuardianUpdated _ | OwnerUpdated _ => 0
  end.

Definition event_total (e : Event) : Z :=
  match e with
  | Deposit _ amount => amount
  | Withdraw _ amount => - amount
  | Paused _ | GuardianUpdated _ | OwnerUpdated _ => 0
  end.

Fixpoint net_flow (b : address) (log : list Event) : Z :=
  match log with
  | [] => 0
  | e :: rest => event_flow b e + net_flow b rest
  end.

Fixpoint net_total (log : list Event) : Z :=
  match log with
  | [] => 0
  | e :: rest => event_total e + net_total rest
  end.

(** Whether [b] is the sender of some call nested in the tree. *)
Fixpoint sends (b : address) (c : call) : bool :=
  match c with
  | call_withdraw _ to => recipient_sends b to
  | call_deposit _ | call_receive _ | call_setPaused _
  | call_setGuardian _ | call_setOwner _ => false
  end
with recipient_sends (b : address) (to : recipient) : bool :=
  match to with
  | Rejects => false
  | Accepts cs => calls_send b cs
  end
with calls_send (b : address) (cs : calls) : bool :=
  match cs with
  | no_calls => false
  | and_then a c rest => (a =? b) || sends b c || calls_send b rest
  end.

(** The 5-wei vault after its owner 1 handed it over to 9. *)
Definition handed_over : Storage := set_owner 9 vault_with_5.

(** Address 7 withdraws 2 wei and, on receiving them, deposits 1 back and
    tries to withdraw 10 more (which reverts and is caught). *)
Definition reentrant_withdraw : call :=
  call_withdraw 2
    (Accepts (and_then 7 (call_deposit 1)
                (and_then 7 (call_withdraw 10 (Accepts no_calls))
                   no_calls))).

Definition after_reentrant_withdraw : Storage :=
  storage_after (exec reentrant_withdraw 7) vault_with_5.

End VaultJournal.

(** ** The page's environment plumbing

    The layout (app/layout.tsx) copies three server variables into
    [window.__ENV__]; the page derives its constants from [readPublicEnv];
    the dev-only block at the end of the page overwrites [__ENV__]. *)
Module PageEnvSetup.
Import Page.

Definition K_RPC : string := "NEXT_PUBLIC_SUPRA_RPC".
Definition K_VAULT : string := "NEXT_PUBLIC_VAULT_ADDRESS".
Definition K_USDC : string := "NEXT_PUBLIC_USDC_ADDRESS".

(** [process.env.X || ''] on the server *)
Definition or_empty (v : option string) : string :=
  match v with
  | Some s => if nonempty s then s else ""
  | None => ""
  end.

(** [runtimeEnv] of [RootLayout] *)
Definition runtimeEnv (server_env : EnvRecord) : EnvRecord :=
  <[K_RPC := Some (or_empty (record_get server_env K_RPC))]>
    (<[K_VAULT := Some (or_empty (record_get server_env K_VAULT))]>
       (<[K_USDC := Some (or_empty (record_get server_env K_USDC))]> ∅)).

(** Whether a string holds the character [<]. *)
Definition has_lt (s : string) : bool :=
  match String.index 0 "<" s with
  | Some _ => true
  | None => false
  end.

(** Whether the first [<] of a string starts [</script>]. *)
Definition starts_close (s : string) : bool :=
  match String.index 0 "<" s with
  | Some n => String.eqb (String.substring n 9 s) "</script>"
  | None => false
  end.

(** The layout writes [`window.__ENV__ = ${JSON.stringify(runtimeEnv)};`]
    raw into a script element ([dangerouslySetInnerHTML]).  [JSON.stringify]
    escapes quotes, backslashes and control characters only, so a [<] in a
    value stays a [<] in the page, and where the element then ends is up to
    the browser's HTML tokenizer.  A text with no [<] cannot end the element
    or open an escaped section; the three keys hold none, and the escapes
    add none. *)
Definition script_safe (server_env : EnvRecord) : bool :=
  negb (has_lt (or_empty (record_get server_env K_RPC)))
  && negb (has_lt (or_empty (record_get server_env K_VAULT)))
  && negb (has_lt (or_empty (record_get server_env K_USDC))).

(** The values are printed in the order of the object literal.  When the
    first [<] of the first value that holds one starts [</script>], the
    tokenizer (still in its plain script state) ends the element there, in
    the middle of a string literal. *)
Definition closes_early (server_env : EnvRecord) : bool :=
  let rpc := or_empty (record_get server_env K_RPC) in
  let vault := or_empty (record_get server_env K_VAULT) in
  let usdc := or_empty (record_get server_env K_USDC) in
  if has_lt rpc then starts_close rpc
  else if has_lt vault then starts_close vault
  else if has_lt usdc then starts_close usdc
  else false.

(** The assignment [window.__ENV__ = {...}] of the inline script. *)
Definition assign_ENV (server_env : EnvRecord) (h : Host) : Host :=
  {| process := process h;
     globalThis :=
       {| __ENV__ := Some (runtimeEnv server_env);
          __NEXT_PUBLIC__ := __NEXT_PUBLIC__ (globalThis h);
          globals := globals (globalThis h) |} |}.

(** The inline script in the browser.  When its text reaches the engine
    whole it is that assignment, the JSON text of a record of strings being
    the object literal of that record.  When the element is closed early
    the text left in it ends inside a string literal: it is not a program,
    nothing runs and nothing is assigned.  For any other value holding a
    [<] the outcome is the tokenizer's and this model does not give one
    ([None]). *)
Definition inject (server_env : EnvRecord) (h : Host) : option Host :=
  if script_safe server_env then Some (assign_ENV server_env h)
  else if closes_early server_env then Some h
  else None.

(** The host with [__ENV__] deleted. *)
Definition without_ENV (h : Host) : Host :=
  {| process := process h;
     globalThis :=
       {| __ENV__ := None;
          __NEXT_PUBLIC__ := __NEXT_PUBLIC__ (globalThis h);
          globals := globals (globalThis h) |} |}.

(** [x ?? d] for [x : string | undefined] *)
Definition nullish_or (x : option string) (d : string) : string :=
  match x with
  | Some s => s
  | None => d
  end.

Definition RPC (h : Host) : string :=
  nullish_or (readPublicEnv h K_RPC) "https://rpc.supra.com".
Definition VAULT_ADDR_RAW (h : Host) : string :=
  nullish_or (readPublicEnv h K_VAULT) "".
Definition USDC_ADDR_RAW (h : Host) : string :=
  nullish_or (readPublicEnv h K_USDC) "".

(** The dev-only sanity block at the end of the page, as far as it changes
    the host: [process as ProcessEnv] throws where [process] is not defined
    (caught); otherwise, unless [NODE_ENV] is 'production', it assigns
    [g.__ENV__ = { TEST_KEY: 'ok' }]. *)
Definition dev_sanity_block (h : Host) : Host :=
  match process h with
  | None => h
  | Some proc =>
      let node_env :=
        match env proc with
        | Some e => record_get e "NODE_ENV"
        | None => None
        end in
      if match node_env with
         | Some v => String.eqb v "production"
         | None => false
         end
      then h
      else
        {| process := process h;
           globalThis :=
             {| __ENV__ := Some {[ "TEST_KEY" := Some "ok" ]};
                __NEXT_PUBLIC__ := __NEXT_PUBLIC__ (globalThis h);
                globals := globals (globalThis h) |} |}
  end.

(** Whether the block runs its tests on [h]. *)
Definition dev_mode (h : Host) : bool :=
  match process h with
  | None => false
  | Some proc =>
      match env proc with
      | Some e =>
          match record_get e "NODE_ENV" with
          | Some v => negb (String.eqb v "production")
          | None => true
          end
      | None => true
      end
  end.






(** A connected user holding 3 shares, slider at 25%. *)
Definition dust_render : State :=
  {| account_address := Some "0xabc"; wallet := true; decimals := 6;
     tvl := Some 5000; userShares := Some 3; usdcBal := Some 2000;
     amount := "1000"; withdrawPct := 25; busy := false |}.



End PageEnvSetup.

(** ** The wallet hook ([useWallet]) *)
Module Wallet.
Import Page.

(** A JavaScript number as [parseInt] returns it. *)
Inductive jsnumber : Type :=
  | NaN
  | Number (n : Z).

(** The hook's four [useState] cells; [wallet] tells whether a wallet client
    is set. *)
Record HookState : Type := {
  address : option string;
  wallet : bool;
  chainId : option jsnumber;
  error : option string
}.

(** What [eth_chainId] resolves to: [string[] | string]. *)
Inductive chain_answer : Type :=
  | OneString (s : string)
  | Strings (l : list string).

(** The injected provider's answers; [None] is a rejected promise. *)
Record Provider : Type := {
  request_accounts : option (list string);
  request_chainId : option chain_answer
}.

(** [globalThis.ethereum], and the built-in [parseInt(_, 16)] on strings. *)
Record Browser : Type := {
  ethereum : option Provider;
  parseInt16 : string → jsnumber
}.

Definition initial_hook : HookState :=
  {| address := None; wallet := false; chainId := None; error := None |}.

Definition setError (e : option string) (s : HookState) : HookState :=
  {| address := address s; wallet := wallet s; chainId := chainId s;
     error := e |}.
Definition setWallet (w : bool) (s : HookState) : HookState :=
  {| address := address s; wallet := w; chainId := chainId s;
     error := error s |}.
Definition setAddress (a : option string) (s : HookState) : HookState :=
  {| address := a; wallet := wallet s; chainId := chainId s;
     error := error s |}.
Definition setChainId (c : option jsnumber) (s : HookState) : HookState :=
  {| address := address s; wallet := wallet s; chainId := c;
     error := error s |}.

(** [parseInt(chainIdStr, 16)]; [chainIdStr] is undefined when the provider
    answered with an empty array, and "undefined" has no leading hex digit. *)
Definition parse_chainId (b : Browser) (chainIdStr : option string)
  : jsnumber :=
  match chainIdStr with
  | Some s => parseInt16 b s
  | None => NaN
  end.

(** [connect]: the outcome of the async callback, the hook state it leaves
    and the methods it requested from the provider, in order. *)
Definition connect (b : Browser) (s : HookState)
  : outcome unit * HookState * list string :=
  let s := setError None s in
  match ethereum b with
  | None => (Done tt, setError (Some "No injected wallet found") s, [])
  | Some eth =>
      let s := setWallet true s in
      match request_accounts eth with
      | None => (Failed, s, ["eth_requestAccounts"])
      | Some accounts =>
          let s := setAddress (head accounts) s in
          match request_chainId eth with
          | None => (Done tt, s, ["eth_requestAccounts"; "eth_chainId"])
          | Some chainIdResult =>
              let chainIdStr :=
                match chainIdResult with
                | Strings l => head l
                | OneString x => Some x
                end in
              (Done tt, setChainId (Some (parse_chainId b chainIdStr)) s,
               ["eth_requestAccounts"; "eth_chainId"])
          end
      end
  end.

Definition disconnect (s : HookState) : HookState :=
  setWallet false (setAddress None s).

(** The page renders with the hook's [address] and [wallet]. *)
Definition render_with (hs : HookState) (st : State) : State :=
  {| account_address := address hs; Page.wallet := wallet hs;
     decimals := decimals st; tvl := tvl st; userShares := userShares st;
     usdcBal := usdcBal st; amount := amount st;
     withdrawPct := withdrawPct st; busy := busy st |}.

(** A provider that hands out one account on chain 0x1, one whose user
    declines, and a browser without a wallet. *)
Definition hex_one (s : string) : jsnumber :=
  if String.eqb s "0x1" then Number 1 else NaN.

Definition good_browser : Browser :=
  {| ethereum := Some {| request_accounts := Some ["0xabc"];
                         request_chainId := Some (OneString "0x1") |};
     parseInt16 := hex_one |}.

Definition declining_browser : Browser :=
  {| ethereum := Some {| request_accounts := None;
                         request_chainId := Some (OneString "0x1") |};
     parseInt16 := hex_one |}.

Definition no_wallet_browser : Browser :=
  {| ethereum := None; parseInt16 := hex_one |}.

End Wallet.

(** * Properties *)

(** ** Ledger sums *)
Section LedgerSum.
Import EVM.

Lemma mapping_sum_empty : mapping_sum ∅ = 0.
Proof. apply map_fold_empty. Qed.

Lemma mapping_sum_insert_fresh (m : gmap Z Z) (a v : Z) :
  m !! a = None → mapping_sum (<[a := v]> m) = v + mapping_sum m.
Proof.
  intros Hfresh. unfold mapping_sum.
  rewrite map_fold_insert_L; [done | intros; lia | done].
Qed.

Lemma mapping_sum_delete (m : gmap Z Z) (a : Z) :
  mapping_sum (delete a m) = mapping_sum m - mapping_get m a.
Proof.
  unfold mapping_get. destruct (m !! a) as [x|] eqn:Hlook; simpl.
  - rewrite <- (insert_delete_id m a x Hlook) at 2.
    rewrite mapping_sum_insert_fresh by apply lookup_delete_eq. lia.
  - rewrite delete_id by done. lia.
Qed.

(** Writing one slot moves the sum by the difference of the two values. *)
Lemma mapping_sum_insert (m : gmap Z Z) (a v : Z) :
  mapping_sum (<[a := v]> m) = mapping_sum m - mapping_get m a + v.
Proof.
  rewrite <- insert_delete_eq.
  rewrite mapping_sum_insert_fresh by apply lookup_delete_eq.
  rewrite mapping_sum_delete. lia.
Qed.

Lemma mapping_get_insert (m : gmap Z Z) (a b v : Z) :
  mapping_get (<[a := v]> m) b = if decide (a = b) then v else mapping_get m b.
Proof.
  unfold mapping_get. rewrite lookup_insert. by case_decide.
Qed.

(** No slot of a ledger of non-negative entries exceeds the sum. *)
Lemma mapping_get_le_sum (m : gmap Z Z) (a : Z) :
  map_Forall (λ _ v, 0 ≤ v) m → 0 ≤ mapping_get m a ≤ mapping_sum m.
Proof.
  induction m as [|k x m Hk _ IH] using map_first_key_ind; intros Hall.
  - unfold mapping_get. rewrite lookup_empty, mapping_sum_empty. simpl. lia.
  - apply map_Forall_insert in Hall as [Hx Hrest]; [|done].
    specialize (IH Hrest).
    rewrite mapping_sum_insert_fresh by done.
    rewrite mapping_get_insert. case_decide; lia.
Qed.

End LedgerSum.

(** ** The Phase-0 vault *)
Section VaultFacts.
Import EVM Vault.

(** *** What each function computes, guard by guard *)

Lemma deposit_body_unfold a v s :
  deposit_body a v s =
    if negb (0 <? v) then Revert (Require "ZERO_DEPOSIT")
    else if negb (balanceOf s a + v <=? MAX_UINT256) then Revert (Panic 17)
    else if negb (totalAssets s + v <=? MAX_UINT256) then Revert (Panic 17)
    else Ok (tt, credited a v s, [Deposit a v]).
Proof.
  unfold deposit_body, bind, require, gets, modify, emit, checked_add, ret,
    revert.
  destruct (0 <? v); simpl; [|done].
  destruct (balanceOf s a + v <=? MAX_UINT256); simpl; [|done].
  destruct (totalAssets s + v <=? MAX_UINT256); simpl; done.
Qed.

Lemma notPaused_unfold {A} (body : Tx A) s :
  notPaused body s =
    if paused s then Revert (Require "VAULT_PAUSED") else body s.
Proof.
  unfold notPaused, bind, gets, require, ret, revert.
  destruct (paused s); simpl; [done|].
  destruct (body s) as [[[x s'] l]|e]; done.
Qed.

Lemma deposit_unfold a v s :
  deposit a v s =
    if paused s then Revert (Require "VAULT_PAUSED")
    else if negb (0 <? v) then Revert (Require "ZERO_DEPOSIT")
    else if negb (balanceOf s a + v <=? MAX_UINT256) then Revert (Panic 17)
    else if negb (totalAssets s + v <=? MAX_UINT256) then Revert (Panic 17)
    else Ok (tt, credited a v s, [Deposit a v]).
Proof. unfold deposit. by rewrite notPaused_unfold, deposit_body_unfold. Qed.

Lemma withdraw_body_unfold a m send s :
  withdraw_body a m send s =
    if negb (0 <? m) then Revert (Require "ZERO_WITHDRAW")
    else if negb (m <=? balanceOf s a)
         then Revert (Require "INSUFFICIENT_BALANCE")
    else if negb (m <=? totalAssets s) then Revert (Panic 17)
    else match send (debited a m s) with
         | Revert e => Revert e
         | Ok (false, _, _) => Revert (Require "ETH_TRANSFER_FAILED")
         | Ok (true, s', l) => Ok (tt, s', l ++ [Withdraw a m])
         end.
Proof.
  unfold withdraw_body, bind, require, gets, modify, emit, checked_sub, ret,
    revert.
  destruct (0 <? m); simpl; [|done].
  destruct (m <=? balanceOf s a); simpl; [|done].
  destruct (m <=? totalAssets s); simpl; [|done].
  change (set_totalAssets _ _) with (debited a m s).
  destruct (send (debited a m s)) as [[[[|] s'] l]|e]; simpl; done.
Qed.

Lemma withdraw_unfold a m send s :
  withdraw a m send s =
    if paused s then Revert (Require "VAULT_PAUSED")
    else withdraw_body a m send s.
Proof. unfold withdraw. by rewrite notPaused_unfold. Qed.

Lemma onlyGuardianOrOwner_unfold {A} c (body : Tx A) s :
  onlyGuardianOrOwner c body s =
    if (c =? owner s) || (c =? guardian s) then body s
    else Revert (Require "NOT_AUTHORIZED").
Proof.
  unfold onlyGuardianOrOwner, bind, gets, require, ret, revert.
  destruct ((c =? owner s) || (c =? guardian s)); simpl; [|done].
  destruct (body s) as [[[x s'] l]|e]; done.
Qed.

Lemma onlyOwner_unfold {A} c (body : Tx A) s :
  onlyOwner c body s =
    if c =? owner s then body s else Revert (Require "NOT_OWNER").
Proof.
  unfold onlyOwner, bind, gets, require, ret, revert.
  destruct (c =? owner s); simpl; [|done].
  destruct (body s) as [[[x s'] l]|e]; done.
Qed.

Lemma setPaused_unfold c b s :
  setPaused c b s =
    if (c =? owner s) || (c =? guardian s)
    then Ok (tt, set_paused b s, [Paused b])
    else Revert (Require "NOT_AUTHORIZED").
Proof. unfold setPaused. by rewrite onlyGuardianOrOwner_unfold. Qed.

Lemma setGuardian_unfold c g s :
  setGuardian c g s =
    if c =? owner s then
      if g =? 0 then Revert (Require "ZERO_ADDRESS")
      else Ok (tt, set_guardian g s, [GuardianUpdated g])
    else Revert (Require "NOT_OWNER").
Proof.
  unfold setGuardian. rewrite onlyOwner_unfold.
  unfold bind, require, modify, emit, ret, revert.
  destruct (c =? owner s), (g =? 0); done.
Qed.

Lemma setOwner_unfold c o s :
  setOwner c o s =
    if c =? owner s then
      if o =? 0 then Revert (Require "ZERO_ADDRESS")
      else Ok (tt, set_owner o s, [OwnerUpdated o])
    else Revert (Require "NOT_OWNER").
Proof.
  unfold setOwner. rewrite onlyOwner_unfold.
  unfold bind, require, modify, emit, ret, revert.
  destruct (c =? owner s), (o =? 0); done.
Qed.

End VaultFacts.

(** *** Invariants of the storage

    A predicate that survives the five storage updates survives every call,
    whatever the recipients of the withdrawn ether call back. *)
Section Invariant.
Import EVM Vault.
Variable P : Storage → Prop.
Hypothesis P_credited : ∀ s a v,
  P s → 0 < v → balanceOf s a + v ≤ MAX_UINT256 →
  totalAssets s + v ≤ MAX_UINT256 → P (credited a v s).
Hypothesis P_debited : ∀ s a m,
  P s → 0 < m → m ≤ balanceOf s a → m ≤ totalAssets s → P (debited a m s).
Hypothesis P_set_paused : ∀ s b, P s → P (set_paused b s).
Hypothesis P_set_guardian : ∀ s g, P s → P (set_guardian g s).
Hypothesis P_set_owner : ∀ s o, P s → P (set_owner o s).

Lemma deposit_invariant a v s s' l :
  P s → deposit a v s = Ok (tt, s', l) → P s'.
Proof.
  intros HP. rewrite deposit_unfold.
  destruct (paused s); [done|].
  destruct (0 <? v) eqn:Hv; simpl; [|done].
  destruct (balanceOf s a + v <=? MAX_UINT256) eqn:Hb; simpl; [|done].
  destruct (totalAssets s + v <=? MAX_UINT256) eqn:Ht; simpl; [|done].
  intros [= <- _]. apply P_credited; [done|lia..].
Qed.

Lemma withdraw_invariant a m send s s' l :
  (∀ s1 ok s2 l2, P s1 → send s1 = Ok (ok, s2, l2) → P s2) →
  P s → withdraw a m send s = Ok (tt, s', l) → P s'.
Proof.
  intros Hsend HP. rewrite withdraw_unfold, withdraw_body_unfold.
  destruct (paused s); [done|].
  destruct (0 <? m) eqn:Hm; simpl; [|done].
  destruct (m <=? balanceOf s a) eqn:Hb; simpl; [|done].
  destruct (m <=? totalAssets s) eqn:Ht; simpl; [|done].
  destruct (send (debited a m s)) as [[[[|] s1] l1]|e] eqn:Hs; [|done..].
  intros [= <- _]. eapply Hsend; [|exact Hs].
  apply P_debited; [done|lia..].
Qed.

Lemma call_tree_invariant :
  (∀ c a s s' l, P s → exec c a s = Ok (tt, s', l) → P s') ∧
  (∀ to s ok s' l, P s → send to s = Ok (ok, s', l) → P s') ∧
  (∀ cs s u s' l, P s → run cs s = Ok (u, s', l) → P s').
Proof.
  apply call_tree_ind; simpl.
  - intros v a s s' l. apply deposit_invariant.
  - intros v a s s' l. apply deposit_invariant.
  - intros m to IH a s s' l. apply withdraw_invariant, IH.
  - intros b a s s' l HP. rewrite setPaused_unfold.
    destruct (_ || _); [|done]. intros [= <- _]. by apply P_set_paused.
  - intros g a s s' l HP. rewrite setGuardian_unfold.
    destruct (a =? owner s), (g =? 0); try done.
    intros [= <- _]. by apply P_set_guardian.
  - intros o a s s' l HP. rewrite setOwner_unfold.
    destruct (a =? owner s), (o =? 0); try done.
    intros [= <- _]. by apply P_set_owner.
  - intros s ok s' l HP [= _ <- _]. done.
  - intros cs IH s ok s' l HP. unfold bind, ret.
    destruct (run cs s) as [[[u s1] l1]|e] eqn:Hrun; [|done].
    intros [= _ <- _]. eapply IH; eauto.
  - intros s u s' l HP [= _ <- _]. done.
  - intros a c IHc rest IHrest s u s' l HP. unfold bind, try_call.
    destruct (exec c a s) as [[[[] s1] l1]|e] eqn:Hexec.
    + destruct (run rest s1) as [[[u2 s2] l2]|e] eqn:Hrun; [|done].
      intros [= _ <- _]. eapply IHrest; [|exact Hrun]. eapply IHc; eauto.
    + destruct (run rest s) as [[[u2 s2] l2]|e2] eqn:Hrun; [|done].
      intros [= _ <- _]. eapply IHrest; eauto.
Qed.

Lemma exec_invariant c a s s' :
  P s → step s a c s' → P s'.
Proof.
  intros HP [l Hexec]. destruct call_tree_invariant as (Hcall & _ & _).
  eapply Hcall; eauto.
Qed.

Lemma reachable_invariant :
  (∀ deployer g, P (constructor deployer g)) →
  ∀ s, reachable s → P s.
Proof.
  intros Hinit s Hreach. induction Hreach as [|s a c s' _ IH Hstep]; [done|].
  eapply exec_invariant; eauto.
Qed.

End Invariant.

(** *** The ledger's accounting is an invariant *)
Section Ledger.
Import EVM Vault.

Lemma balanceOf_range s a :
  ledger_ok s → 0 ≤ balanceOf s a ≤ MAX_UINT256.
Proof.
  intros [_ Hrange]. unfold balanceOf, mapping_get.
  destruct (balances s !! a) as [x|] eqn:Hlook; simpl.
  - exact (Hrange a x Hlook).
  - unfold MAX_UINT256. lia.
Qed.

Lemma balanceOf_le_totalAssets s a :
  ledger_ok s → balanceOf s a ≤ totalAssets s.
Proof.
  intros [Hsum Hrange]. rewrite Hsum. unfold balanceOf, balances_sum.
  apply mapping_get_le_sum.
  intros k x Hk. specialize (Hrange k x Hk). simpl in Hrange. lia.
Qed.

Lemma ledger_ok_constructor deployer g : ledger_ok (constructor deployer g).
Proof.
  split; simpl.
  - unfold balances_sum. simpl. by rewrite mapping_sum_empty.
  - apply map_Forall_empty.
Qed.

Lemma ledger_ok_credited s a v :
  ledger_ok s → 0 < v → balanceOf s a + v ≤ MAX_UINT256 →
  totalAssets s + v ≤ MAX_UINT256 → ledger_ok (credited a v s).
Proof.
  intros Hok Hv Hb Ht. pose proof (balanceOf_range s a Hok) as Hr.
  destruct Hok as [Hsum Hrange]. split; simpl.
  - unfold balances_sum. simpl. rewrite mapping_sum_insert.
    fold (balanceOf s a). unfold balances_sum in Hsum. lia.
  - apply map_Forall_insert_2; [lia|done].
Qed.

Lemma ledger_ok_debited s a m :
  ledger_ok s → 0 < m → m ≤ balanceOf s a → m ≤ totalAssets s →
  ledger_ok (debited a m s).
Proof.
  intros Hok Hm Hb Ht. pose proof (balanceOf_range s a Hok) as Hr.
  destruct Hok as [Hsum Hrange]. split; simpl.
  - unfold balances_sum. simpl. rewrite mapping_sum_insert.
    fold (balanceOf s a). unfold balances_sum in Hsum. lia.
  - apply map_Forall_insert_2; [lia|done].
Qed.

Lemma ledger_ok_step s a c s' : ledger_ok s → step s a c s' → ledger_ok s'.
Proof.
  apply exec_invariant; auto using ledger_ok_credited, ledger_ok_debited.
Qed.

Lemma ledger_ok_reachable s : reachable s → ledger_ok s.
Proof.
  apply reachable_invariant;
    auto using ledger_ok_credited, ledger_ok_debited, ledger_ok_constructor.
Qed.

(** A recipient never makes the vault revert by itself: it answers the call
    with [ok], whatever it called back. *)
Lemma run_returns cs s : ∃ s' l, run cs s = Ok (tt, s', l).
Proof.
  revert s. induction cs as [|a c rest IH]; intros s; simpl.
  - by eexists _, _.
  - unfold bind, try_call.
    destruct (exec c a s) as [[[[] s1] l1]|e].
    + destruct (IH s1) as (s2 & l2 & ->). by eexists _, _.
    + destruct (IH s) as (s2 & l2 & ->). by eexists _, _.
Qed.

Lemma send_Rejects s : send Rejects s = Ok (false, s, []).
Proof. done. Qed.

Lemma send_Accepts cs s : ∃ s' l, send (Accepts cs) s = Ok (true, s', l).
Proof.
  simpl. unfold bind, ret. destruct (run_returns cs s) as (s' & l & ->).
  by eexists _, _.
Qed.

Lemma send_Accepts_no_calls s :
  send (Accepts no_calls) s = Ok (true, s, []).
Proof. done. Qed.

End Ledger.

(** *** Deposit, withdraw, pause and the admin functions *)
Section VaultClaims.
Import EVM Vault.

Lemma vault_with_5_reachable : reachable vault_with_5.
Proof.
  apply (reachable_step (constructor 1 2) 7 (call_deposit 5)).
  - apply reachable_constructor.
  - exists [Deposit 7 5]. vm_compute. reflexivity.
Qed.

Lemma paused_vault_with_5_reachable : reachable paused_vault_with_5.
Proof.
  apply (reachable_step vault_with_5 1 (call_setPaused true)).
  - apply vault_with_5_reachable.
  - exists [Paused true]. vm_compute. reflexivity.
Qed.

(** What the recipient finds when control reaches it: the withdrawn amount
    is already off both the balance and [totalAssets], whatever it goes on
    to call. *)
Lemma withdraw_pays_after_debit s a m to :
  paused s = false → 0 < m ≤ balanceOf s a → m ≤ totalAssets s →
  withdraw a m (send to) s =
    match send to (debited a m s) with
    | Ok (true, s', l) => Ok (tt, s', l ++ [Withdraw a m])
    | Ok (false, _, _) => Revert (Require "ETH_TRANSFER_FAILED")
    | Revert e => Revert e
    end.
Proof.
  intros Hrun [Hm Hbal] Htot.
  rewrite withdraw_unfold, Hrun, withdraw_body_unfold.
  replace (0 <? m) with true by (symmetry; apply Z.ltb_lt; lia).
  replace (m <=? balanceOf s a) with true by (symmetry; apply Z.leb_le; lia).
  replace (m <=? totalAssets s) with true by (symmetry; apply Z.leb_le; lia).
  simpl. by destruct (send to (debited a m s)) as [[[[|] s'] l]|e].
Qed.

(** C1, as stated, fails where the caller does not take the ether: in a
    reachable, unpaused vault holding 5 wei for address 7, [withdraw(2)]
    from 7 reverts with ETH_TRANSFER_FAILED when 7 refuses the transfer, and
    [balances[7]] and [totalAssets] stay 5 instead of going down by 2. *)
Lemma withdraw_refused_counterexample :
  reachable vault_with_5 ∧ paused vault_with_5 = false ∧
  0 < 2 ≤ balanceOf vault_with_5 7 ∧
  withdraw 7 2 (send Rejects) vault_with_5
    = Revert (Require "ETH_TRANSFER_FAILED") ∧
  balanceOf (storage_after (withdraw 7 2 (send Rejects)) vault_with_5) 7
    ≠ balanceOf vault_with_5 7 - 2 ∧
  totalAssets (storage_after (withdraw 7 2 (send Rejects)) vault_with_5)
    ≠ totalAssets vault_with_5 - 2.
Proof.
  split; [apply vault_with_5_reachable|]. split; [reflexivity|].
  split; [by vm_compute|]. split; [reflexivity|].
  split; by vm_compute.
Qed.

(** C1, amended. In a vault that is not paused and whose accounting holds
    (every reachable state), [deposit()] with a value [v > 0] that fits
    beside [totalAssets] in a uint256 adds exactly [v] to the caller's
    balance and to [totalAssets] and leaves the other balances alone; and
    [withdraw(m)] with [0 < m <= balances[a]] takes exactly [m] off both
    before it sends the ether.  The decrease stands when the caller takes
    the ether (after whatever it calls back); the call reverts, and nothing
    changes, when the caller refuses it. *)
Theorem deposit_withdraw_track_balances (s : Storage) (a : address) :
  ledger_ok s → paused s = false →
  (∀ v, 0 < v → totalAssets s + v ≤ MAX_UINT256 →
     deposit a v s = Ok (tt, credited a v s, [Deposit a v]) ∧
     balanceOf (credited a v s) a = balanceOf s a + v ∧
     totalAssets (credited a v s) = totalAssets s + v ∧
     (∀ b, b ≠ a → balanceOf (credited a v s) b = balanceOf s b)) ∧
  (∀ m, 0 < m ≤ balanceOf s a →
     balanceOf (debited a m s) a = balanceOf s a - m ∧
     totalAssets (debited a m s) = totalAssets s - m ∧
     (∀ b, b ≠ a → balanceOf (debited a m s) b = balanceOf s b) ∧
     withdraw a m (send (Accepts no_calls)) s
       = Ok (tt, debited a m s, [Withdraw a m]) ∧
     (∀ cs, ∃ s' l,
        run cs (debited a m s) = Ok (tt, s', l) ∧
        withdraw a m (send (Accepts cs)) s
          = Ok (tt, s', l ++ [Withdraw a m])) ∧
     withdraw a m (send Rejects) s = Revert (Require "ETH_TRANSFER_FAILED") ∧
     storage_after (withdraw a m (send Rejects)) s = s).
Proof.
  intros Hok Hrun.
  pose proof (balanceOf_le_totalAssets s a Hok) as Hle.
  assert (Hget : ∀ x b, mapping_get (<[a := x]> (balances s)) b
                        = if decide (a = b) then x else balanceOf s b)
    by (intros; apply mapping_get_insert).
  split.
  - intros v Hv Hfit. split; [|split; [|split]].
    + rewrite deposit_unfold, Hrun.
      replace (0 <? v) with true by (symmetry; apply Z.ltb_lt; lia).
      replace (balanceOf s a + v <=? MAX_UINT256) with true
        by (symmetry; apply Z.leb_le; lia).
      by replace (totalAssets s + v <=? MAX_UINT256) with true
        by (symmetry; apply Z.leb_le; lia).
    + unfold balanceOf at 1. simpl. by rewrite Hget, decide_True.
    + done.
    + intros b Hb. unfold balanceOf at 1. simpl.
      by rewrite Hget, decide_False.
  - intros m Hm.
    assert (Hpay : ∀ to, withdraw a m (send to) s =
              match send to (debited a m s) with
              | Ok (true, s', l) => Ok (tt, s', l ++ [Withdraw a m])
              | Ok (false, _, _) => Revert (Require "ETH_TRANSFER_FAILED")
              | Revert e => Revert e
              end)
      by (intros to; apply withdraw_pays_after_debit; [done..|lia]).
    split; [|split; [|split; [|split; [|split; [|split]]]]].
    + unfold balanceOf at 1. simpl. by rewrite Hget, decide_True.
    + done.
    + intros b Hb. unfold balanceOf at 1. simpl.
      by rewrite Hget, decide_False.
    + by rewrite Hpay, send_Accepts_no_calls.
    + intros cs. rewrite Hpay. simpl. unfold bind, ret.
      destruct (run_returns cs (debited a m s)) as (s' & l & ->).
      exists s', l. by rewrite app_nil_r.
    + by rewrite Hpay, send_Rejects.
    + unfold storage_after. by rewrite Hpay, send_Rejects.
Qed.

Lemma deposit_withdraw_track_balances_witness :
  (deposit 7 3 vault_with_5 = Ok (tt, credited 7 3 vault_with_5, [Deposit 7 3])
   ∧ balanceOf (credited 7 3 vault_with_5) 7 = 5 + 3
   ∧ totalAssets (credited 7 3 vault_with_5) = 5 + 3) ∧
  (withdraw 7 2 (send (Accepts no_calls)) vault_with_5
     = Ok (tt, debited 7 2 vault_with_5, [Withdraw 7 2])
   ∧ balanceOf (debited 7 2 vault_with_5) 7 = 5 - 2
   ∧ totalAssets (debited 7 2 vault_with_5) = 5 - 2).
Proof.
  assert (Hok : ledger_ok vault_with_5).
  { split; [reflexivity|].
    apply map_Forall_singleton. unfold MAX_UINT256. simpl. lia. }
  destruct (deposit_withdraw_track_balances vault_with_5 7 Hok eq_refl)
    as [Hdep Hwd].
  split.
  - destruct (Hdep 3) as (Hrun & Hbal & Htot & _);
      [lia | unfold MAX_UINT256; simpl; lia |].
    split; [exact Hrun|]. split; [exact Hbal | exact Htot].
  - destruct (Hwd 2) as (Hbal & Htot & _ & Hrun & _);
      [vm_compute; split; [reflexivity | discriminate] |].
    split; [exact Hrun|]. split; [exact Hbal | exact Htot].
Defined.

(** C2. While [paused] is true, [deposit()] and [withdraw(amount)] revert
    with VAULT_PAUSED and the storage stays as it was; while it is false the
    modifier lets the call through unchanged: the call does what the
    function body does. *)
Theorem pause_flag_gates_deposit_and_withdraw
    (s : Storage) (a : address) (v m : Z) (to : recipient) :
  (paused s = true →
     deposit a v s = Revert (Require "VAULT_PAUSED") ∧
     withdraw a m (send to) s = Revert (Require "VAULT_PAUSED") ∧
     storage_after (deposit a v) s = s ∧
     storage_after (withdraw a m (send to)) s = s) ∧
  (paused s = false →
     deposit a v s = deposit_body a v s ∧
     withdraw a m (send to) s = withdraw_body a m (send to) s ∧
     deposit a v s ≠ Revert (Require "VAULT_PAUSED") ∧
     withdraw a m (send to) s ≠ Revert (Require "VAULT_PAUSED")).
Proof.
  split; intros Hp.
  - unfold storage_after. rewrite deposit_unfold, withdraw_unfold, Hp. done.
  - split; [by rewrite deposit_unfold, Hp, deposit_body_unfold|].
    split; [by rewrite withdraw_unfold, Hp|]. split.
    + rewrite deposit_unfold, Hp. repeat (case_match; try done).
    + rewrite withdraw_unfold, Hp, withdraw_body_unfold.
      destruct to as [|cs].
      * rewrite send_Rejects. repeat (case_match; try done).
      * destruct (send_Accepts cs (debited a m s)) as (s' & l & ->).
        repeat (case_match; try done).
Qed.

(** C4. [setPaused(b)] goes through, writing [b] to [paused] and nothing
    else, exactly when the caller is the owner or the guardian; from anyone
    else it reverts with NOT_AUTHORIZED and the storage stays as it was. *)
Theorem setPaused_owner_or_guardian (s : Storage) (c : address) (b : bool) :
  ((∃ s' log, setPaused c b s = Ok (tt, s', log))
     ↔ c = owner s ∨ c = guardian s) ∧
  (c = owner s ∨ c = guardian s →
     setPaused c b s = Ok (tt, set_paused b s, [Paused b]) ∧
     paused (storage_after (setPaused c b) s) = b) ∧
  (¬ (c = owner s ∨ c = guardian s) →
     setPaused c b s = Revert (Require "NOT_AUTHORIZED") ∧
     storage_after (setPaused c b) s = s).
Proof.
  assert (Hauth : (c =? owner s) || (c =? guardian s) = true
                  ↔ c = owner s ∨ c = guardian s)
    by (by rewrite orb_true_iff, !Z.eqb_eq).
  unfold storage_after. rewrite setPaused_unfold.
  destruct ((c =? owner s) || (c =? guardian s)).
  - split; [|split].
    + split; [intros _; by apply Hauth | intros _; by eexists _, _].
    + by intros _.
    + intros Hno. destruct Hno. by apply Hauth.
  - split; [|split].
    + split; [by intros (? & ? & ?) | intros H; by apply Hauth in H].
    + intros H. by apply Hauth in H.
    + by intros _.
Qed.

(** C7. The admin functions never write the ledger: after [setPaused],
    [setGuardian] or [setOwner], from any caller and in any state, gone
    through or reverted, [balances] and [totalAssets] are what they were. *)
Theorem admin_calls_leave_ledger (s : Storage) (c : address)
    (b : bool) (g o : address) :
  (balances (storage_after (setPaused c b) s) = balances s ∧
   totalAssets (storage_after (setPaused c b) s) = totalAssets s) ∧
  (balances (storage_after (setGuardian c g) s) = balances s ∧
   totalAssets (storage_after (setGuardian c g) s) = totalAssets s) ∧
  (balances (storage_after (setOwner c o) s) = balances s ∧
   totalAssets (storage_after (setOwner c o) s) = totalAssets s).
Proof.
  unfold storage_after.
  rewrite setPaused_unfold, setGuardian_unfold, setOwner_unfold.
  destruct ((c =? owner s) || (c =? guardian s)), (c =? owner s),
    (g =? 0), (o =? 0); done.
Qed.

(** C8. In every state reached from the constructor through successful
    calls (the calls that recipients of withdrawn ether make back into the
    vault included), [totalAssets] is the sum of all balances. *)
Theorem totalAssets_is_sum_of_balances (s : Storage) :
  reachable s → totalAssets s = balances_sum s.
Proof.
  intros Hreach.
  assert (Hok : ledger_ok s).
  { induction Hreach as [deployer g | s a c s' _ IH Hstep].
    - apply ledger_ok_constructor.
    - by apply (ledger_ok_step s a c s'). }
  by destruct Hok as [Hsum _].
Qed.

Lemma totalAssets_is_sum_of_balances_witness :
  totalAssets (credited 7 5 (constructor 1 2))
    = balances_sum (credited 7 5 (constructor 1 2)).
Proof.
  apply totalAssets_is_sum_of_balances.
  apply (reachable_step (constructor 1 2) 7 (call_deposit 5)).
  - apply reachable_constructor.
  - exists [Deposit 7 5]. vm_compute. reflexivity.
Defined.

(** C9. A plain transfer of ether runs [receive], which is [deposit()] for
    the same sender and value: the same result in every state, hence the
    same storage update, the same Deposit event and the same reverts (a zero
    value; in the Phase-0 vault also the pause).  So it is in the MVP stub. *)
Theorem receive_is_deposit (a : address) (v : Z)
    (s : Storage) (s0 : VaultMVP.Storage) :
  receive a v s = deposit a v s ∧
  VaultMVP.receive a v s0 = VaultMVP.deposit a v s0 ∧
  (∀ s' log, receive a v s = Ok (tt, s', log) →
     s' = credited a v s ∧ log = [Deposit a v]) ∧
  (paused s = true → receive a v s = Revert (Require "VAULT_PAUSED")) ∧
  (paused s = false → v ≤ 0 →
     receive a v s = Revert (Require "ZERO_DEPOSIT")) ∧
  (v ≤ 0 → VaultMVP.receive a v s0 = Revert (Require "ZERO")).
Proof.
  split; [done|]. split; [done|].
  unfold receive. rewrite deposit_unfold. repeat split.
  - repeat (case_match; try done). congruence.
  - repeat (case_match; try done). congruence.
  - by intros ->.
  - intros -> Hv.
    by replace (0 <? v) with false by (symmetry; apply Z.ltb_ge; lia).
  - intros Hv. unfold VaultMVP.receive, VaultMVP.deposit, bind, require.
    by replace (0 <? v) with false by (symmetry; apply Z.ltb_ge; lia).
Qed.

End VaultClaims.

(** *** The MVP stub keeps the same books, without [totalAssets] *)
Section MVPFacts.
Import EVM VaultMVP.

Lemma mvp_ledger_tracks_balances (s : Storage) (a : address) :
  0 ≤ balanceOf s a →
  (∀ v, 0 < v → balanceOf s a + v ≤ MAX_UINT256 →
     deposit a v s
       = Ok (tt, set_balance a (balanceOf s a + v) s, [Deposit a v])) ∧
  (∀ m, 0 < m ≤ balanceOf s a →
     withdraw a m (ret true) s
       = Ok (tt, set_balance a (balanceOf s a - m) s, [Withdraw a m])).
Proof.
  intros Hnn. split.
  - intros v Hv Hfit.
    unfold deposit, bind, require, gets, modify, emit, checked_add, ret.
    replace (0 <? v) with true by (symmetry; apply Z.ltb_lt; lia).
    simpl.
    by replace (balanceOf s a + v <=? MAX_UINT256) with true
      by (symmetry; apply Z.leb_le; lia).
  - intros m [Hm Hbal].
    unfold withdraw, bind, require, gets, modify, emit, checked_sub, ret.
    replace (0 <? m) with true by (symmetry; apply Z.ltb_lt; lia).
    simpl.
    by replace (m <=? balanceOf s a) with true
      by (symmetry; apply Z.leb_le; lia).
Qed.

End MVPFacts.

(** *** The revert conditions of deposit and withdraw *)
Section VaultReverts.
Import EVM Vault VaultEntry.

(** C3, as stated, fails on reachable states: [withdraw(0)] reverts with
    ZERO_WITHDRAW although the balance covers it and the recipient would
    take the ether; a paused vault reverts a covered withdrawal; and
    [deposit()] of zero wei reverts with ZERO_DEPOSIT; and a covered
    [withdraw] call that carries ether is turned away, the function not
    being payable. *)
Lemma error_taxonomy_counterexample :
  (reachable vault_with_5 ∧
   withdraw 7 0 (send (Accepts no_calls)) vault_with_5
     = Revert (Require "ZERO_WITHDRAW") ∧
   ¬ (balanceOf vault_with_5 7 < 0 ∨ Accepts no_calls = Rejects)) ∧
  (reachable paused_vault_with_5 ∧
   withdraw 7 5 (send (Accepts no_calls)) paused_vault_with_5
     = Revert (Require "VAULT_PAUSED") ∧
   ¬ (balanceOf paused_vault_with_5 7 < 5 ∨ Accepts no_calls = Rejects)) ∧
  deposit 7 0 vault_with_5 = Revert (Require "ZERO_DEPOSIT") ∧
  withdraw_entry 1 7 5 (Accepts no_calls) vault_with_5 = NotPayable.
Proof.
  split; [|split; [|split]].
  - split; [apply vault_with_5_reachable|]. split; [reflexivity|].
    intros [Hlt|Heq]; [vm_compute in Hlt|]; discriminate.
  - split; [apply paused_vault_with_5_reachable|]. split; [reflexivity|].
    intros [Hlt|Heq]; [vm_compute in Hlt|]; discriminate.
  - reflexivity.
  - reflexivity.
Qed.

(** The guards of [withdraw] and [deposit], in the order they are checked,
    in a state whose accounting holds. *)
Lemma withdraw_guards s a m to :
  ledger_ok s → 0 ≤ m →
  withdraw a m (send to) s =
    if paused s then Revert (Require "VAULT_PAUSED")
    else if m =? 0 then Revert (Require "ZERO_WITHDRAW")
    else if balanceOf s a <? m then Revert (Require "INSUFFICIENT_BALANCE")
    else match to with
         | Rejects => Revert (Require "ETH_TRANSFER_FAILED")
         | Accepts cs =>
             match run cs (debited a m s) with
             | Ok (_, s', l) => Ok (tt, s', l ++ [Withdraw a m])
             | Revert e => Revert e
             end
         end.
Proof.
  intros Hok Hm. pose proof (balanceOf_le_totalAssets s a Hok) as Hle.
  rewrite withdraw_unfold, withdraw_body_unfold.
  destruct (paused s); [done|].
  destruct (Z.eqb_spec m 0) as [->|Hnz]; [done|].
  replace (0 <? m) with true by (symmetry; apply Z.ltb_lt; lia). simpl.
  destruct (Z.ltb_spec (balanceOf s a) m) as [Hlt|Hge].
  { by replace (m <=? balanceOf s a) with false
      by (symmetry; apply Z.leb_gt; lia). }
  replace (m <=? balanceOf s a) with true by (symmetry; apply Z.leb_le; lia).
  replace (m <=? totalAssets s) with true by (symmetry; apply Z.leb_le; lia).
  simpl. destruct to as [|cs]; [done|]. simpl. unfold bind, ret.
  destruct (run cs (debited a m s)) as [[[[] s'] l]|e]; [|done].
  by rewrite app_nil_r.
Qed.

Lemma deposit_guards s a v :
  ledger_ok s → 0 ≤ v →
  deposit a v s =
    if paused s then Revert (Require "VAULT_PAUSED")
    else if v =? 0 then Revert (Require "ZERO_DEPOSIT")
    else if MAX_UINT256 <? totalAssets s + v then Revert (Panic 17)
    else Ok (tt, credited a v s, [Deposit a v]).
Proof.
  intros Hok Hv. pose proof (balanceOf_le_totalAssets s a Hok) as Hle.
  rewrite deposit_unfold. destruct (paused s); [done|].
  destruct (Z.eqb_spec v 0) as [->|Hnz]; [done|].
  replace (0 <? v) with true by (symmetry; apply Z.ltb_lt; lia). simpl.
  destruct (Z.ltb_spec MAX_UINT256 (totalAssets s + v)) as [Hbig|Hfit].
  - replace (totalAssets s + v <=? MAX_UINT256) with false
      by (symmetry; apply Z.leb_gt; lia).
    by destruct (balanceOf s a + v <=? MAX_UINT256).
  - replace (balanceOf s a + v <=? MAX_UINT256) with true
      by (symmetry; apply Z.leb_le; lia).
    by replace (totalAssets s + v <=? MAX_UINT256) with true
      by (symmetry; apply Z.leb_le; lia).
Qed.

(** C3, amended. In a state whose accounting holds, a [withdraw(amount)]
    call reverts exactly when it carries ether (the function is not
    payable), the vault is paused, the amount is zero, the caller's balance
    is below the amount, or the recipient does not take the ether; once
    entered it does so with VAULT_PAUSED, ZERO_WITHDRAW,
    INSUFFICIENT_BALANCE and ETH_TRANSFER_FAILED respectively, the first
    that applies in that order.  [deposit()] reverts exactly when the vault
    is paused (VAULT_PAUSED), the value is zero (ZERO_DEPOSIT), or the value
    does not fit beside [totalAssets] in a uint256 (Panic 0x11).  Neither
    function body reverts with anything else. *)
Theorem revert_conditions
    (s : Storage) (a : address) (v m : Z) (to : recipient) :
  ledger_ok s → 0 ≤ v → 0 ≤ m →
  (reverts (withdraw a m (send to)) s
     ↔ paused s = true ∨ m = 0 ∨ balanceOf s a < m ∨ to = Rejects) ∧
  (reverts (deposit a v) s
     ↔ paused s = true ∨ v = 0 ∨ MAX_UINT256 < totalAssets s + v) ∧
  (withdraw a m (send to) s = Revert (Require "VAULT_PAUSED")
     ↔ paused s = true) ∧
  (withdraw a m (send to) s = Revert (Require "ZERO_WITHDRAW")
     ↔ paused s = false ∧ m = 0) ∧
  (withdraw a m (send to) s = Revert (Require "INSUFFICIENT_BALANCE")
     ↔ paused s = false ∧ 0 < m ∧ balanceOf s a < m) ∧
  (withdraw a m (send to) s = Revert (Require "ETH_TRANSFER_FAILED")
     ↔ paused s = false ∧ 0 < m ≤ balanceOf s a ∧ to = Rejects) ∧
  (∀ e, withdraw a m (send to) s = Revert e →
     e = Require "VAULT_PAUSED" ∨ e = Require "ZERO_WITHDRAW" ∨
     e = Require "INSUFFICIENT_BALANCE" ∨ e = Require "ETH_TRANSFER_FAILED") ∧
  (deposit a v s = Revert (Require "VAULT_PAUSED") ↔ paused s = true) ∧
  (deposit a v s = Revert (Require "ZERO_DEPOSIT")
     ↔ paused s = false ∧ v = 0) ∧
  (deposit a v s = Revert (Panic 17)
     ↔ paused s = false ∧ 0 < v ∧ MAX_UINT256 < totalAssets s + v) ∧
  (∀ e, deposit a v s = Revert e →
     e = Require "VAULT_PAUSED" ∨ e = Require "ZERO_DEPOSIT" ∨ e = Panic 17) ∧
  (∀ msg_value,
     entry_reverts (withdraw_entry msg_value a m to s)
     ↔ msg_value ≠ 0 ∨ paused s = true ∨ m = 0 ∨ balanceOf s a < m
       ∨ to = Rejects).
Proof.
  intros Hok Hv Hm.
  assert (Hw : reverts (withdraw a m (send to)) s
     ↔ paused s = true ∨ m = 0 ∨ balanceOf s a < m ∨ to = Rejects).
  { unfold reverts. rewrite (withdraw_guards s a m to Hok Hm).
    destruct (paused s); [split; eauto|].
    destruct (Z.eqb_spec m 0) as [->|Hnz]; [split; eauto|].
    destruct (Z.ltb_spec (balanceOf s a) m); [split; eauto|].
    destruct to as [|cs]; [split; eauto 6|].
    destruct (run_returns cs (debited a m s)) as (s' & l & ->).
    split; [by intros [e He]|].
    intros [Hp|[Hz|[Hlt|Hrej]]]; [done | lia | lia | done]. }
  assert (Hd : reverts (deposit a v) s
     ↔ paused s = true ∨ v = 0 ∨ MAX_UINT256 < totalAssets s + v).
  { unfold reverts. rewrite (deposit_guards s a v Hok Hv).
    destruct (paused s); [split; eauto|].
    destruct (Z.eqb_spec v 0) as [->|Hnz]; [split; eauto|].
    destruct (Z.ltb_spec MAX_UINT256 (totalAssets s + v));
      [split; eauto|].
    split; [by intros [e He]|].
    intros [Hp|[Hz|Hbig]]; [done | lia | lia]. }
  assert (He : ∀ msg_value,
     entry_reverts (withdraw_entry msg_value a m to s)
     ↔ msg_value ≠ 0 ∨ paused s = true ∨ m = 0 ∨ balanceOf s a < m
       ∨ to = Rejects).
  { intros msg_value. unfold withdraw_entry.
    destruct (Z.eqb_spec msg_value 0) as [->|Hval]; simpl; [|tauto].
    unfold reverts in Hw. rewrite Hw. tauto. }
  split; [exact Hw|]. split; [exact Hd|].
  repeat match goal with |- _ ∧ _ => split end; try exact He.
  all: clear Hw Hd He.
  all: rewrite ?(withdraw_guards s a m to Hok Hm),
         ?(deposit_guards s a v Hok Hv).
  all: destruct (paused s);
    [ try (split; [done | by intros [? ?]]); try (by split);
      try (split; [done | by intros (? & ? & ?)]);
      intros e [= <-]; eauto |].
  all: destruct (Z.eqb_spec m 0) as [->|Hnz];
    [|destruct (Z.ltb_spec (balanceOf s a) m);
      [|destruct to as [|cs];
        [|destruct (run_returns cs (debited a m s)) as (s' & l & Hrun);
          rewrite ?Hrun]]].
  all: destruct (Z.eqb_spec v 0) as [->|Hvz];
    [|destruct (Z.ltb_spec MAX_UINT256 (totalAssets s + v))].
  all: repeat split; try done; try lia; eauto.
  all: try (by intros [? ?]); try (by intros (? & ? & ?)).
  all: try (intros e [= <-]; eauto).
  all: try (intros (_ & ? & ?); lia).
  all: try (intros (_ & ?); lia).
Qed.

Lemma revert_conditions_witness :
  withdraw 7 9 (send (Accepts no_calls)) vault_with_5
    = Revert (Require "INSUFFICIENT_BALANCE") ∧
  withdraw 7 0 (send (Accepts no_calls)) vault_with_5
    = Revert (Require "ZERO_WITHDRAW") ∧
  (reverts (deposit 7 3) vault_with_5
     ↔ paused vault_with_5 = true ∨ 3 = 0
       ∨ MAX_UINT256 < totalAssets vault_with_5 + 3).
Proof.
  assert (Hok : ledger_ok vault_with_5).
  { split; [reflexivity|].
    apply map_Forall_singleton. unfold MAX_UINT256. simpl. lia. }
  assert (H3 : 0 ≤ 3) by lia. assert (H9 : 0 ≤ 9) by lia.
  assert (H0 : 0 ≤ 0) by lia.
  destruct (revert_conditions vault_with_5 7 3 9 (Accepts no_calls)
              Hok H3 H9) as (_ & Hdep & _ & _ & Hins & _).
  destruct (revert_conditions vault_with_5 7 3 0 (Accepts no_calls)
              Hok H3 H0) as (_ & _ & _ & Hzero & _).
  split; [|split; [|exact Hdep]].
  - apply Hins. split; [reflexivity|]. split; [lia|]. by vm_compute.
  - apply Hzero. by split.
Defined.

End VaultReverts.

(** ** The page *)
Section PageEnv.
Import Page.

(** The candidate an entry of a record contributes. *)
Lemma nonempty_string_of_record (v : option string) :
  nonempty_string (match v with
                   | Some s => Value (JString s)
                   | None => Value JUndefined
                   end)
  = match v with
    | Some s => if (String.length s =? 0)%nat then None else Some s
    | None => None
    end.
Proof. by destruct v. Qed.

Lemma read_process_env_spec (h : Host) (key : string) :
  try_catch (read_process_env h key)
  = from_option nonempty_string None (head (candidates h key)).
Proof.
  unfold read_process_env, candidates. simpl.
  destruct (process h) as [[[e|]]|]; simpl; try done.
  destruct (record_get e key) as [s|]; simpl; [|done].
  by destruct (String.length s =? 0)%nat.
Qed.

(** The last step of the runtime block: the global itself. *)
Ltac case_direct_value h key :=
  destruct (global_get (globalThis h) key) as [[| |b|n|s| |]|]; simpl;
  [ done | done | by destruct b | by destruct (negb (n =? 0))
  | by destruct (String.length s =? 0)%nat | done | done | done ].

Ltac case_record_entry r key :=
  let v := fresh "v" in
  destruct (optional_get r key) as [v|]; simpl;
  [ destruct (String.length v =? 0)%nat; simpl; [|done] |].

Lemma read_runtime_env_spec (h : Host) (key : string) :
  try_catch (read_runtime_env h key)
  = first_nonempty_string (tail (candidates h key)).
Proof.
  unfold read_runtime_env, candidates. simpl.
  rewrite !nonempty_string_of_record.
  case_record_entry (__ENV__ (globalThis h)) key;
    case_record_entry (__NEXT_PUBLIC__ (globalThis h)) key;
    case_direct_value h key.
Qed.

Lemma first_nonempty_string_not_empty (l : list access) :
  first_nonempty_string l ≠ Some "".
Proof.
  induction l as [|c l IH]; simpl; [done|].
  destruct c as [[| |b|n|s| |]|]; simpl; try done.
  destruct (String.length s =? 0)%nat eqn:Hlen; [done|].
  intros [= ->]. done.
Qed.

Lemma first_nonempty_string_none (l : list access) :
  Forall (λ c, nonempty_string c = None) l → first_nonempty_string l = None.
Proof. induction 1 as [|c l Hc _ IH]; simpl; [done|]. by rewrite Hc. Qed.

(** C10. [readPublicEnv(k)] is the first non-empty string among
    [process.env[k]], [globalThis.__ENV__[k]], [globalThis.__NEXT_PUBLIC__[k]]
    and [globalThis[k]], in that order, and [undefined] when there is none;
    it never returns the empty string, and it returns (it does not throw)
    even where reading the global throws. *)
Theorem readPublicEnv_first_nonempty_string (h : Host) (key : string) :
  readPublicEnv h key = first_nonempty_string (candidates h key) ∧
  readPublicEnv h key ≠ Some "" ∧
  (Forall (λ c, nonempty_string c = None) (candidates h key) →
   readPublicEnv h key = None).
Proof.
  assert (Heq : readPublicEnv h key
                = first_nonempty_string (candidates h key)).
  { unfold readPublicEnv.
    rewrite read_process_env_spec, read_runtime_env_spec.
    unfold candidates. simpl.
    destruct (nonempty_string _); [done|].
    by destruct (match nonempty_string _ with Some _ => _ | None => _ end). }
  split; [exact Heq|]. rewrite Heq. split.
  - apply first_nonempty_string_not_empty.
  - apply first_nonempty_string_none.
Qed.

(** The two dev-only sanity tests at the bottom of the page. *)
Example dev_test_missing_key :
  readPublicEnv bare_browser "___MISSING___" = None ∧
  readPublicEnv dev_test_host "___MISSING___" = None.
Proof. split; reflexivity. Qed.

Example dev_test_window_injection :
  readPublicEnv dev_test_host "TEST_KEY" = Some "ok".
Proof. reflexivity. Qed.

End PageEnv.

Section PageActions.
Import Page.
Local Open Scope act_scope.

(** What [onWithdraw] does once its guard lets it through. *)
Lemma onWithdraw_unfold w cfg r st account shares :
  wallet r = true → account_address r = Some account →
  nonempty account = true → hasConfig cfg = true →
  userShares r = Some shares → shares ≠ 0 →
  onWithdraw w cfg r st =
    let c := redeem_call cfg (Z.quot (shares * withdrawPct r) 100) account in
    (if write_result w account c then Done tt else Failed,
     with_busy false (with_busy true st),
     [writeContract account c]).
Proof.
  intros Hw Ha Hne Hcfg Hs Hnz.
  unfold onWithdraw, connected, truthy_bigint. rewrite Hw, Ha, Hne, Hcfg, Hs.
  replace (shares =? 0) with false by (symmetry; by apply Z.eqb_neq).
  simpl. unfold bind, try_finally, setBusy, await_write. simpl.
  by destruct (write_result w account _).
Qed.

(** C5. For a connected user on a configured page, with share balance
    [s > 0] and the slider at [p] in [1, 100], [onWithdraw] sends exactly one
    request: a [writeContract] from the user's account to the vault's
    address, with the vault's ABI, function [redeem] and arguments
    [floor(s * p / 100)] shares, the user as receiver and the user as owner;
    that number is at most [s].  With a share balance of 0 or undefined it
    sends nothing and changes nothing. *)
Theorem onWithdraw_redeems_percentage
    (w : World) (cfg : Config) (r st : State) :
  (∀ account s p,
     wallet r = true → account_address r = Some account →
     nonempty account = true → hasConfig cfg = true →
     userShares r = Some s → 0 < s → withdrawPct r = p → 1 ≤ p ≤ 100 →
     requests (onWithdraw w cfg r) st
       = [writeContract account
            {| address := VAULT_ADDR cfg; abi := abiVault;
               functionName := "redeem";
               args := [Uint256 (s * p / 100); Address account;
                        Address account] |}] ∧
     0 ≤ s * p / 100 ≤ s) ∧
  (userShares r = None ∨ userShares r = Some 0 →
     onWithdraw w cfg r st = (Done tt, st, [])).
Proof.
  split.
  - intros account s p Hw Ha Hne Hcfg Hs Hpos Hp Hrange.
    unfold requests.
    rewrite (onWithdraw_unfold w cfg r st account s) by (try done; lia).
    simpl. rewrite Hp, Z.quot_div_nonneg by lia. split; [done|].
    split; [apply Z.div_pos; lia|].
    apply Z.div_le_upper_bound; nia.
  - intros Hs. unfold onWithdraw.
    replace (truthy_bigint (userShares r)) with false
      by (by destruct Hs as [-> | ->]).
    by rewrite !orb_true_r.
Qed.

Lemma onWithdraw_redeems_percentage_witness :
  requests (onWithdraw sample_world sample_config sample_render) sample_render
    = [writeContract "0xabc"
         {| address := "0xvault"; abi := abiVault; functionName := "redeem";
            args := [Uint256 262; Address "0xabc"; Address "0xabc"] |}] ∧
  0 ≤ 262 ≤ 1050.
Proof.
  destruct (onWithdraw_redeems_percentage sample_world sample_config
              sample_render sample_render) as [Hredeem _].
  apply (Hredeem "0xabc" 1050 25); try reflexivity; lia.
Defined.





(** [userShares] is only ever set by the reads effect, and only on a
    configured page: a user with a share balance is on one. *)
Lemma readsEffect_needs_config w cfg r st :
  hasConfig cfg = false → readsEffect w cfg r st = (Done tt, st, []).
Proof. intros Hcfg. unfold readsEffect. by rewrite Hcfg. Qed.

Lemma actions_keep_userShares w cfg r st :
  userShares (snd (fst (onDeposit w cfg r st))) = userShares st ∧
  userShares (snd (fst (onWithdraw w cfg r st))) = userShares st.
Proof.
  split.
  - unfold onDeposit.
    destruct (negb (wallet r) || negb (connected r) || negb (hasConfig cfg));
      [done|].
    destruct (account_address r) as [account|]; [|done].
    unfold bind, try_finally, setBusy, of_option, await_read, await_write.
    simpl.
    destruct (parseUnits w (amount_or_zero r) (decimals r)) as [assets|];
      simpl; [|done].
    destruct (read_result w (allowance_call cfg account)) as [al|]; simpl;
      [|done].
    destruct (al <? assets); simpl.
    + destruct (write_result w account (approve_call cfg assets)); simpl;
        [|done].
      by destruct (write_result w account (deposit_call cfg assets account)).
    + by destruct (write_result w account (deposit_call cfg assets account)).
  - unfold onWithdraw.
    destruct (negb (wallet r) || negb (connected r) || negb (hasConfig cfg)
              || negb (truthy_bigint (userShares r))); [done|].
    destruct (account_address r) as [account|], (userShares r) as [n|];
      try done.
    unfold bind, try_finally, setBusy, await_write. simpl.
    by destruct (write_result w account _).
Qed.

Lemma shares_need_config w cfg r st :
  (is_Some (userShares st) → hasConfig cfg = true) →
  (is_Some (userShares initial_state) → hasConfig cfg = true) ∧
  (is_Some (userShares (snd (fst (readsEffect w cfg r st))))
     → hasConfig cfg = true) ∧
  (is_Some (userShares (snd (fst (onDeposit w cfg r st))))
     → hasConfig cfg = true) ∧
  (is_Some (userShares (snd (fst (onWithdraw w cfg r st))))
     → hasConfig cfg = true).
Proof.
  intros Hst. destruct (actions_keep_userShares w cfg r st) as [-> ->].
  split; [by intros [? [=]]|]. split; [|done].
  destruct (hasConfig cfg) eqn:Hcfg; [done|].
  by rewrite readsEffect_needs_config.
Qed.

End PageActions.

(** * Further properties *)

(** ** The vault's admin functions *)
Section VaultAdmin.
Import EVM Vault VaultJournal.


(** X2. Handing the vault over is final: once [setOwner(o)] has gone through
    for an [o] other than the old owner, the old owner is refused by both
    owner-only functions, the new owner is accepted by them, and the old
    owner keeps the right to pause only if it is also the guardian. *)
Theorem ownership_handover
    (s s' : Storage) (c o : address) (log : list Event) :
  setOwner c o s = Ok (tt, s', log) → o ≠ owner s →
  owner s' = o ∧ c = owner s ∧
  (∀ x, setOwner c x s' = Revert (Require "NOT_OWNER")) ∧
  (∀ x, setGuardian c x s' = Revert (Require "NOT_OWNER")) ∧
  (∀ x, x ≠ 0 → setOwner o x s' = Ok (tt, set_owner x s', [OwnerUpdated x])) ∧
  (∀ x, x ≠ 0 →
     setGuardian o x s' = Ok (tt, set_guardian x s', [GuardianUpdated x])) ∧
  (∀ b, (∃ s'' l, setPaused c b s' = Ok (tt, s'', l)) ↔ c = guardian s).
Proof.
  rewrite setOwner_unfold.
  destruct (Z.eqb_spec c (owner s)) as [Hc|Hc]; [|done].
  destruct (Z.eqb_spec o 0) as [Ho|Ho]; [done|].
  intros [= <- _] Hne. simpl. split; [done|]. split; [done|].
  assert (Hold : (c =? o) = false) by (apply Z.eqb_neq; congruence).
  repeat split.
  - intros x. rewrite setOwner_unfold. simpl. by rewrite Hold.
  - intros x. rewrite setGuardian_unfold. simpl. by rewrite Hold.
  - intros x Hx. rewrite setOwner_unfold. simpl. rewrite Z.eqb_refl.
    by replace (x =? 0) with false by (symmetry; by apply Z.eqb_neq).
  - intros x Hx. rewrite setGuardian_unfold. simpl. rewrite Z.eqb_refl.
    by replace (x =? 0) with false by (symmetry; by apply Z.eqb_neq).
  - rewrite setPaused_unfold. simpl. rewrite Hold. simpl.
    destruct (Z.eqb_spec c (guardian s)); [done|]. by intros (? & ? & ?).
  - rewrite setPaused_unfold. simpl. rewrite Hold. simpl.
    intros ->. rewrite Z.eqb_refl. by eexists _, _.
Qed.

Lemma ownership_handover_witness :
  owner handed_over = 9 ∧
  setOwner 1 1 handed_over = Revert (Require "NOT_OWNER") ∧
  setGuardian 9 4 handed_over
    = Ok (tt, set_guardian 4 handed_over, [GuardianUpdated 4]).
Proof.
  destruct (ownership_handover vault_with_5 handed_over 1 9 [OwnerUpdated 9])
    as (Ho & _ & Hold & _ & _ & Hnew & _);
    [reflexivity | discriminate |].
  split; [exact Ho|]. split; [exact (Hold 1)|]. apply Hnew. discriminate.
Defined.

End VaultAdmin.

(** ** Invariants whose proof needs the guards of the admin functions *)
Section GuardedInvariant.
Import EVM Vault.
Variable P : Storage → Prop.
Hypothesis P_credited : ∀ s a v,
  P s → 0 < v → balanceOf s a + v ≤ MAX_UINT256 →
  totalAssets s + v ≤ MAX_UINT256 → P (credited a v s).
Hypothesis P_debited : ∀ s a m,
  P s → 0 < m → m ≤ balanceOf s a → m ≤ totalAssets s → P (debited a m s).
Hypothesis P_set_paused : ∀ s c b,
  P s → c = owner s ∨ c = guardian s → P (set_paused b s).
Hypothesis P_set_guardian : ∀ s g,
  P s → g ≠ 0 → P (set_guardian g s).
Hypothesis P_set_owner : ∀ s o,
  P s → o ≠ 0 → P (set_owner o s).

Lemma guarded_tree_invariant :
  (∀ c a s s' l, P s → exec c a s = Ok (tt, s', l) → P s') ∧
  (∀ to s ok s' l, P s → send to s = Ok (ok, s', l) → P s') ∧
  (∀ cs s u s' l, P s → run cs s = Ok (u, s', l) → P s').
Proof.
  apply call_tree_ind; simpl.
  - intros v a s s' l HP. rewrite deposit_unfold.
    destruct (paused s); [done|].
    destruct (Z.ltb_spec 0 v); simpl; [|done].
    destruct (Z.leb_spec (balanceOf s a + v) MAX_UINT256); simpl; [|done].
    destruct (Z.leb_spec (totalAssets s + v) MAX_UINT256); simpl; [|done].
    intros [= <- _]. by apply P_credited.
  - intros v a s s' l HP. unfold receive. rewrite deposit_unfold.
    destruct (paused s); [done|].
    destruct (Z.ltb_spec 0 v); simpl; [|done].
    destruct (Z.leb_spec (balanceOf s a + v) MAX_UINT256); simpl; [|done].
    destruct (Z.leb_spec (totalAssets s + v) MAX_UINT256); simpl; [|done].
    intros [= <- _]. by apply P_credited.
  - intros m to IH a s s' l HP.
    rewrite withdraw_unfold, withdraw_body_unfold.
    destruct (paused s); [done|].
    destruct (Z.ltb_spec 0 m); simpl; [|done].
    destruct (Z.leb_spec m (balanceOf s a)); simpl; [|done].
    destruct (Z.leb_spec m (totalAssets s)); simpl; [|done].
    destruct (send to (debited a m s)) as [[[[|] s1] l1]|e] eqn:Hs; [|done..].
    intros [= <- _]. eapply IH; [|exact Hs]. by apply P_debited.
  - intros b a s s' l HP. rewrite setPaused_unfold.
    destruct (Z.eqb_spec a (owner s)) as [Ho|Ho]; simpl.
    { intros [= <- _]. apply (P_set_paused s a b); auto. }
    destruct (Z.eqb_spec a (guardian s)) as [Hg|Hg]; [|done].
    intros [= <- _]. apply (P_set_paused s a b); auto.
  - intros g a s s' l HP. rewrite setGuardian_unfold.
    destruct (a =? owner s); [|done].
    destruct (Z.eqb_spec g 0); [done|].
    intros [= <- _]. by apply P_set_guardian.
  - intros o a s s' l HP. rewrite setOwner_unfold.
    destruct (a =? owner s); [|done].
    destruct (Z.eqb_spec o 0); [done|].
    intros [= <- _]. by apply P_set_owner.
  - intros s ok s' l HP [= _ <- _]. done.
  - intros cs IH s ok s' l HP. unfold bind, ret.
    destruct (run cs s) as [[[u s1] l1]|e] eqn:Hrun; [|done].
    intros [= _ <- _]. eapply IH; eauto.
  - intros s u s' l HP [= _ <- _]. done.
  - intros a c IHc rest IHrest s u s' l HP. unfold bind, try_call.
    destruct (exec c a s) as [[[[] s1] l1]|e] eqn:Hexec.
    + destruct (run rest s1) as [[[u2 s2] l2]|e] eqn:Hrun; [|done].
      intros [= _ <- _]. eapply IHrest; [|exact Hrun]. eapply IHc; eauto.
    + destruct (run rest s) as [[[u2 s2] l2]|e2] eqn:Hrun; [|done].
      intros [= _ <- _]. eapply IHrest; eauto.
Qed.

Lemma guarded_step_invariant c a s s' : P s → step s a c s' → P s'.
Proof.
  intros HP [l Hexec]. destruct guarded_tree_invariant as (Hcall & _ & _).
  eapply Hcall; eauto.
Qed.

End GuardedInvariant.

Section VaultStanding.
Import EVM Vault VaultJournal.

(** X3. No call, with whatever its recipients call back, makes the zero
    address the owner or the guardian: an owner (a guardian) that is not
    zero before a successful call is not zero after it. *)
Theorem admin_addresses_stay_nonzero
    (s s' : Storage) (a : address) (c : call) :
  step s a c s' →
  (owner s ≠ 0 → owner s' ≠ 0) ∧ (guardian s ≠ 0 → guardian s' ≠ 0).
Proof.
  intros Hstep. split; intros Hnz.
  - by apply (guarded_step_invariant (λ x, owner x ≠ 0)) with c a s.
  - by apply (guarded_step_invariant (λ x, guardian x ≠ 0)) with c a s.
Qed.

Lemma admin_addresses_stay_nonzero_witness :
  owner handed_over ≠ 0 ∧ guardian handed_over ≠ 0.
Proof.
  destruct (admin_addresses_stay_nonzero vault_with_5 handed_over 1
              (call_setOwner 9)) as [Ho Hg].
  - exists [OwnerUpdated 9]. reflexivity.
  - split; [apply Ho | apply Hg]; discriminate.
Defined.

(** X4. In every reachable state each balance is a uint256 no larger than
    [totalAssets], and [totalAssets] is a uint256 too: re-entering
    recipients included, nobody is owed a negative amount or more than the
    vault accounts for. *)
Theorem balances_within_totalAssets (s : Storage) (a : address) :
  reachable s →
  0 ≤ balanceOf s a ≤ totalAssets s ∧ totalAssets s ≤ MAX_UINT256.
Proof.
  intros Hreach.
  assert (Hinv : ledger_ok s ∧ totalAssets s ≤ MAX_UINT256).
  { induction Hreach as [deployer g | s b c s' _ IH Hstep].
    - split; [apply ledger_ok_constructor|]. by vm_compute.
    - revert IH Hstep.
      apply (exec_invariant (λ x, ledger_ok x ∧ totalAssets x ≤ MAX_UINT256)).
      + intros x b' v [Hok Hmax] Hv Hb Ht.
        split; [by apply ledger_ok_credited | simpl; lia].
      + intros x b' m [Hok Hmax] Hm Hb Ht.
        split; [by apply ledger_ok_debited | simpl; lia].
      + by intros x p [Hok Hmax].
      + by intros x p [Hok Hmax].
      + by intros x p [Hok Hmax]. }
  destruct Hinv as [Hok Hmax].
  pose proof (balanceOf_range s a Hok). pose proof (balanceOf_le_totalAssets s a Hok).
  lia.
Qed.

Lemma balances_within_totalAssets_witness :
  0 ≤ balanceOf vault_with_5 7 ≤ totalAssets vault_with_5 ∧
  totalAssets vault_with_5 ≤ MAX_UINT256.
Proof.
  apply balances_within_totalAssets.
  apply (reachable_step (constructor 1 2) 7 (call_deposit 5)).
  - apply reachable_constructor.
  - exists [Deposit 7 5]. vm_compute. reflexivity.
Defined.

End VaultStanding.

(** ** Who can move a balance, and what the events record *)
Section VaultFlows.
Import EVM Vault VaultJournal.

Lemma balanceOf_credited a v s b :
  balanceOf (credited a v s) b
  = balanceOf s b + (if a =? b then v else 0).
Proof.
  unfold balanceOf at 1. simpl. rewrite mapping_get_insert.
  fold (balanceOf s b).
  destruct (Z.eqb_spec a b) as [->|Hne];
    [rewrite decide_True by done | rewrite decide_False by done]; lia.
Qed.

Lemma balanceOf_debited a m s b :
  balanceOf (debited a m s) b
  = balanceOf s b + (if a =? b then - m else 0).
Proof.
  unfold balanceOf at 1. simpl. rewrite mapping_get_insert.
  fold (balanceOf s b).
  destruct (Z.eqb_spec a b) as [->|Hne];
    [rewrite decide_True by done | rewrite decide_False by done]; lia.
Qed.

Lemma net_total_app l1 l2 :
  net_total (l1 ++ l2) = net_total l1 + net_total l2.
Proof. induction l1 as [|e l1 IH]; simpl; lia. Qed.

Lemma net_flow_app b l1 l2 :
  net_flow b (l1 ++ l2) = net_flow b l1 + net_flow b l2.
Proof. induction l1 as [|e l1 IH]; simpl; lia. Qed.

(** The three kinds of successful call, as the journal needs them. *)
Lemma deposit_Ok a v s s' l :
  deposit a v s = Ok (tt, s', l) →
  s' = credited a v s ∧ l = [Deposit a v].
Proof.
  rewrite deposit_unfold. destruct (paused s); [done|].
  destruct (0 <? v); simpl; [|done].
  destruct (balanceOf s a + v <=? MAX_UINT256); simpl; [|done].
  destruct (totalAssets s + v <=? MAX_UINT256); simpl; [|done].
  by intros [= <- <-].
Qed.

Lemma withdraw_Ok a m pay s s' l :
  withdraw a m pay s = Ok (tt, s', l) →
  ∃ l1, pay (debited a m s) = Ok (true, s', l1) ∧ l = l1 ++ [Withdraw a m].
Proof.
  rewrite withdraw_unfold, withdraw_body_unfold. destruct (paused s); [done|].
  destruct (0 <? m); simpl; [|done].
  destruct (m <=? balanceOf s a); simpl; [|done].
  destruct (m <=? totalAssets s); simpl; [|done].
  destruct (pay (debited a m s)) as [[[[|] s1] l1]|e]; [|done..].
  intros [= <- <-]. by exists l1.
Qed.

Lemma admin_Ok c a s s' l :
  match c with
  | call_setPaused _ | call_setGuardian _ | call_setOwner _ => True
  | _ => False
  end →
  exec c a s = Ok (tt, s', l) →
  balances s' = balances s ∧ totalAssets s' = totalAssets s ∧
  net_total l = 0 ∧ ∀ b, net_flow b l = 0.
Proof.
  destruct c as [| | |p|g|o]; try done; intros _; simpl.
  - rewrite setPaused_unfold. destruct (_ || _); [|done].
    by intros [= <- <-].
  - rewrite setGuardian_unfold. destruct (a =? owner s), (g =? 0); try done.
    by intros [= <- <-].
  - rewrite setOwner_unfold. destruct (a =? owner s), (o =? 0); try done.
    by intros [= <- <-].
Qed.

Lemma journal_tree :
  (∀ c a s s' l, exec c a s = Ok (tt, s', l) →
     totalAssets s' = totalAssets s + net_total l ∧
     ∀ b, balanceOf s' b = balanceOf s b + net_flow b l) ∧
  (∀ to s ok s' l, send to s = Ok (ok, s', l) →
     totalAssets s' = totalAssets s + net_total l ∧
     ∀ b, balanceOf s' b = balanceOf s b + net_flow b l) ∧
  (∀ cs s u s' l, run cs s = Ok (u, s', l) →
     totalAssets s' = totalAssets s + net_total l ∧
     ∀ b, balanceOf s' b = balanceOf s b + net_flow b l).
Proof.
  apply call_tree_ind.
  - intros v a s s' l Hex. apply deposit_Ok in Hex as [-> ->]. simpl.
    split; [lia|]. intros b. rewrite balanceOf_credited. lia.
  - intros v a s s' l Hex. apply deposit_Ok in Hex as [-> ->]. simpl.
    split; [lia|]. intros b. rewrite balanceOf_credited. lia.
  - intros m to IH a s s' l Hex. simpl in Hex.
    apply withdraw_Ok in Hex as (l1 & Hpay & ->).
    apply IH in Hpay as [Htot Hbal]. rewrite net_total_app. simpl in *.
    split; [lia|]. intros b. rewrite net_flow_app, Hbal, balanceOf_debited.
    simpl. lia.
  - intros p a s s' l Hex.
    apply admin_Ok in Hex as (Hb & Ht & Hn & Hf); [|done].
    split; [lia|]. intros b. unfold balanceOf. rewrite Hb, Hf. lia.
  - intros g a s s' l Hex.
    apply admin_Ok in Hex as (Hb & Ht & Hn & Hf); [|done].
    split; [lia|]. intros b. unfold balanceOf. rewrite Hb, Hf. lia.
  - intros o a s s' l Hex.
    apply admin_Ok in Hex as (Hb & Ht & Hn & Hf); [|done].
    split; [lia|]. intros b. unfold balanceOf. rewrite Hb, Hf. lia.
  - intros s ok s' l [= _ <- <-]. simpl. split; [lia|]. intros; lia.
  - intros cs IH s ok s' l. simpl. unfold bind, ret.
    destruct (run cs s) as [[[u s1] l1]|e] eqn:Hrun; [|done].
    intros [= _ <- <-]. rewrite app_nil_r. by apply IH in Hrun.
  - intros s u s' l [= _ <- <-]. simpl. split; [lia|]. intros; lia.
  - intros a c IHc rest IHrest s u s' l. simpl. unfold bind, try_call.
    destruct (exec c a s) as [[[[] s1] l1]|e] eqn:Hexec.
    + destruct (run rest s1) as [[[u2 s2] l2]|e] eqn:Hrun; [|done].
      intros [= _ <- <-]. apply IHc in Hexec as [Ht1 Hb1].
      apply IHrest in Hrun as [Ht2 Hb2]. rewrite net_total_app.
      split; [lia|]. intros b. rewrite net_flow_app, Hb2, Hb1. lia.
    + destruct (run rest s) as [[[u2 s2] l2]|e2] eqn:Hrun; [|done].
      intros [= _ <- <-]. simpl. by apply IHrest in Hrun.
Qed.

(** X5. The event log of a successful call is a faithful journal: for the
    call and everything its recipients called back, [totalAssets] moved by
    the Deposit amounts minus the Withdraw amounts in the log, and each
    address's balance moved by the amounts of the events that name it
    (calls that reverted inside left no event and no change). *)
Theorem events_account_for_every_change
    (c : call) (a : address) (s s' : Storage) (log : list Event) :
  exec c a s = Ok (tt, s', log) →
  totalAssets s' = totalAssets s + net_total log ∧
  ∀ b, balanceOf s' b = balanceOf s b + net_flow b log.
Proof. destruct journal_tree as (Hcall & _ & _). apply Hcall. Qed.

Lemma events_account_for_every_change_witness :
  exec reentrant_withdraw 7 vault_with_5
    = Ok (tt, after_reentrant_withdraw, [Deposit 7 1; Withdraw 7 2]) ∧
  totalAssets after_reentrant_withdraw = 5 + (1 - 2) ∧
  balanceOf after_reentrant_withdraw 7 = 5 + (1 - 2) ∧
  balanceOf after_reentrant_withdraw 8 = 0.
Proof.
  assert (Hex : exec reentrant_withdraw 7 vault_with_5
                = Ok (tt, after_reentrant_withdraw,
                      [Deposit 7 1; Withdraw 7 2]))
    by (vm_compute; reflexivity).
  destruct (events_account_for_every_change _ _ _ _ _ Hex) as [Htot Hbal].
  split; [exact Hex|].
  split; [exact Htot|]. split; [exact (Hbal 7) | exact (Hbal 8)].
Defined.

Lemma no_sender_tree (b : address) :
  (∀ c a s s' l, a ≠ b → sends b c = false →
     exec c a s = Ok (tt, s', l) → balanceOf s' b = balanceOf s b) ∧
  (∀ to s ok s' l, recipient_sends b to = false →
     send to s = Ok (ok, s', l) → balanceOf s' b = balanceOf s b) ∧
  (∀ cs s u s' l, calls_send b cs = false →
     run cs s = Ok (u, s', l) → balanceOf s' b = balanceOf s b).
Proof.
  apply call_tree_ind.
  - intros v a s s' l Ha _ Hex. apply deposit_Ok in Hex as [-> ->].
    rewrite balanceOf_credited.
    replace (a =? b) with false by (symmetry; by apply Z.eqb_neq). lia.
  - intros v a s s' l Ha _ Hex. apply deposit_Ok in Hex as [-> ->].
    rewrite balanceOf_credited.
    replace (a =? b) with false by (symmetry; by apply Z.eqb_neq). lia.
  - intros m to IH a s s' l Ha Hno Hex. simpl in Hex, Hno.
    apply withdraw_Ok in Hex as (l1 & Hpay & ->).
    rewrite (IH _ _ _ _ Hno Hpay), balanceOf_debited.
    replace (a =? b) with false by (symmetry; by apply Z.eqb_neq). lia.
  - intros p a s s' l _ _ Hex.
    apply admin_Ok in Hex as (Hb & _); [|done]. unfold balanceOf. by rewrite Hb.
  - intros g a s s' l _ _ Hex.
    apply admin_Ok in Hex as (Hb & _); [|done]. unfold balanceOf. by rewrite Hb.
  - intros o a s s' l _ _ Hex.
    apply admin_Ok in Hex as (Hb & _); [|done]. unfold balanceOf. by rewrite Hb.
  - by intros s ok s' l _ [= _ <- _].
  - intros cs IH s ok s' l Hno. simpl in *. unfold bind, ret.
    destruct (run cs s) as [[[u s1] l1]|e] eqn:Hrun; [|done].
    intros [= _ <- _]. by apply (IH _ _ _ _ Hno Hrun).
  - by intros s u s' l _ [= _ <- _].
  - intros a c IHc rest IHrest s u s' l Hno. simpl in *.
    apply orb_false_iff in Hno as [Hno Hrest].
    apply orb_false_iff in Hno as [Ha Hc]. apply Z.eqb_neq in Ha.
    unfold bind, try_call.
    destruct (exec c a s) as [[[[] s1] l1]|e] eqn:Hexec.
    + destruct (run rest s1) as [[[u2 s2] l2]|e] eqn:Hrun; [|done].
      intros [= _ <- _].
      rewrite (IHrest _ _ _ _ Hrest Hrun). by apply (IHc _ _ _ _ Ha Hc Hexec).
    + destruct (run rest s) as [[[u2 s2] l2]|e2] eqn:Hrun; [|done].
      intros [= _ <- _]. by apply (IHrest _ _ _ _ Hrest Hrun).
Qed.

(** X6. Nobody else can move your balance: a successful call leaves
    [balances[b]] as it was unless [b] is its sender or the sender of one of
    the calls made back into the vault while it ran.  The owner and the
    guardian have no way into a user's balance either. *)
Theorem balance_moves_only_by_own_calls
    (b : address) (c : call) (a : address) (s s' : Storage) :
  step s a c s' → a ≠ b → sends b c = false →
  balanceOf s' b = balanceOf s b.
Proof.
  intros [l Hex] Ha Hno. destruct (no_sender_tree b) as (Hcall & _ & _).
  by apply (Hcall c a s s' l).
Qed.

Lemma balance_moves_only_by_own_calls_witness :
  balanceOf after_reentrant_withdraw 8 = balanceOf vault_with_5 8.
Proof.
  apply (balance_moves_only_by_own_calls 8 reentrant_withdraw 7).
  - exists [Deposit 7 1; Withdraw 7 2]. vm_compute. reflexivity.
  - discriminate.
  - reflexivity.
Defined.

(** X7. A deposit followed by a withdrawal of the same amount by the same
    caller.  When the caller takes the ether and makes no call back into the
    vault, the books are put back: every balance and [totalAssets] are what
    they were before the deposit, and the log of the two calls is the
    Deposit followed by the Withdraw.  A caller that takes the ether and
    does call back ([Accepts cs]) is handed exactly those restored books
    [s2] to act on: the withdrawal still goes through, its final state and
    log are those of the calls [cs] run from [s2], followed by the Withdraw
    event, so the books need not be restored then.  A caller that refuses
    the ether makes the withdrawal revert with ETH_TRANSFER_FAILED. *)
Theorem deposit_then_withdraw_restores
    (s : Storage) (a : address) (v : Z) :
  ledger_ok s → paused s = false → 0 < v →
  totalAssets s + v ≤ MAX_UINT256 →
  ∃ s1 s2,
    deposit a v s = Ok (tt, s1, [Deposit a v]) ∧
    withdraw a v (send (Accepts no_calls)) s1 = Ok (tt, s2, [Withdraw a v]) ∧
    totalAssets s2 = totalAssets s ∧
    (∀ b, balanceOf s2 b = balanceOf s b) ∧
    owner s2 = owner s ∧ guardian s2 = guardian s ∧ paused s2 = paused s ∧
    (∀ cs, ∃ s3 l,
       run cs s2 = Ok (tt, s3, l) ∧
       withdraw a v (send (Accepts cs)) s1
         = Ok (tt, s3, l ++ [Withdraw a v])) ∧
    withdraw a v (send Rejects) s1 = Revert (Require "ETH_TRANSFER_FAILED").
Proof.
  intros Hok Hrun Hv Hfit.
  pose proof (balanceOf_le_totalAssets s a Hok) as Hle.
  pose proof (balanceOf_range s a Hok) as Hrange.
  exists (credited a v s), (debited a v (credited a v s)).
  split.
  { rewrite deposit_unfold, Hrun.
    replace (0 <? v) with true by (symmetry; apply Z.ltb_lt; lia).
    replace (balanceOf s a + v <=? MAX_UINT256) with true
      by (symmetry; apply Z.leb_le; lia).
    by replace (totalAssets s + v <=? MAX_UINT256) with true
      by (symmetry; apply Z.leb_le; lia). }
  assert (Hbal : balanceOf (credited a v s) a = balanceOf s a + v)
    by (rewrite balanceOf_credited, Z.eqb_refl; lia).
  split.
  { rewrite withdraw_pays_after_debit; [done | done | |]; simpl; lia. }
  split; [simpl; lia|]. split.
  { intros b. rewrite balanceOf_debited, balanceOf_credited.
    destruct (a =? b); lia. }
  do 3 (split; [done|]). split.
  - intros cs.
    destruct (run_returns cs (debited a v (credited a v s)))
      as (s3 & l & Hcs).
    exists s3, l. split; [done|].
    rewrite withdraw_pays_after_debit by (done || (simpl; lia)).
    cbn [send]. unfold bind, ret. by rewrite Hcs, app_nil_r.
  - rewrite withdraw_pays_after_debit; [done | done | |]; simpl; lia.
Qed.

Lemma deposit_then_withdraw_restores_witness :
  ∃ s1 s2,
    deposit 7 3 vault_with_5 = Ok (tt, s1, [Deposit 7 3]) ∧
    withdraw 7 3 (send (Accepts no_calls)) s1 = Ok (tt, s2, [Withdraw 7 3]) ∧
    totalAssets s2 = 5 ∧ balanceOf s2 7 = 5.
Proof.
  destruct (deposit_then_withdraw_restores vault_with_5 7 3)
    as (s1 & s2 & Hd & Hw & Ht & Hb & _).
  - split; [reflexivity|].
    apply map_Forall_singleton. unfold MAX_UINT256. simpl. lia.
  - reflexivity.
  - lia.
  - unfold MAX_UINT256. simpl. lia.
  - exists s1, s2. split; [exact Hd|]. split; [exact Hw|].
    split; [exact Ht | exact (Hb 7)].
Defined.

(** X8. A paused vault's books are frozen: the only calls that go through
    are the three admin functions, so after any successful call on a paused
    vault [balances] and [totalAssets] are unchanged; deposits, plain
    transfers and withdrawals all revert with VAULT_PAUSED. *)
Theorem paused_vault_is_frozen
    (s s' : Storage) (a : address) (c : call) :
  paused s = true → step s a c s' →
  balances s' = balances s ∧ totalAssets s' = totalAssets s ∧
  match c with
  | call_setPaused _ | call_setGuardian _ | call_setOwner _ => True
  | call_deposit _ | call_receive _ | call_withdraw _ _ => False
  end.
Proof.
  intros Hp [l Hex]. destruct c as [v|v|m to|p|g|o]; simpl in Hex.
  - by rewrite deposit_unfold, Hp in Hex.
  - unfold receive in Hex. by rewrite deposit_unfold, Hp in Hex.
  - by rewrite withdraw_unfold, Hp in Hex.
  - apply (admin_Ok (call_setPaused p)) in Hex as (Hb & Ht & _); done.
  - apply (admin_Ok (call_setGuardian g)) in Hex as (Hb & Ht & _); done.
  - apply (admin_Ok (call_setOwner o)) in Hex as (Hb & Ht & _); done.
Qed.

Lemma paused_vault_is_frozen_witness :
  balances (set_paused false paused_vault_with_5)
    = balances paused_vault_with_5 ∧
  totalAssets (set_paused false paused_vault_with_5)
    = totalAssets paused_vault_with_5.
Proof.
  destruct (paused_vault_is_frozen paused_vault_with_5
              (set_paused false paused_vault_with_5) 2 (call_setPaused false))
    as (Hb & Ht & _).
  - reflexivity.
  - exists [Paused false]. reflexivity.
  - split; [exact Hb | exact Ht].
Defined.

End VaultFlows.

(** ** The MVP stub *)
Section MVPMore.
Import EVM VaultMVP.


(** X10. The MVP stub's [setOwner], body as written, goes through exactly
    for the owner naming a non-zero address (NOT_OWNER is checked before
    ZERO_ADDR); it then emits OwnerChanged with the owner being replaced
    first and the new owner second, makes the new address the owner, and
    leaves every balance alone.  In the state it leaves, a [setOwner] from
    the previous owner is refused with NOT_OWNER when the new owner is a
    different address.  That is not for ever: the new owner can hand the
    contract back, after which the previous owner's [setOwner] goes through
    again. *)
Theorem mvp_setOwner_handover (s : Storage) (c o : address) :
  (setOwner c o s =
     if negb (c =? owner s) then Revert (Require "NOT_OWNER")
     else if o =? 0 then Revert (Require "ZERO_ADDR")
     else Ok (tt, set_owner o s, [OwnerChanged (owner s) o])) ∧
  (∀ s' l, setOwner c o s = Ok (tt, s', l) →
     c = owner s ∧ o ≠ 0 ∧ owner s' = o ∧ balances s' = balances s ∧
     l = [OwnerChanged c o] ∧
     (o ≠ c → ∀ x, setOwner c x s' = Revert (Require "NOT_OWNER")) ∧
     (c ≠ 0 →
        setOwner o c s' = Ok (tt, set_owner c s', [OwnerChanged o c]) ∧
        ∀ x, x ≠ 0 →
          setOwner c x (set_owner c s')
            = Ok (tt, set_owner x (set_owner c s'), [OwnerChanged c x]))).
Proof.
  assert (Hs : ∀ st x y, setOwner x y st =
     if negb (x =? owner st) then Revert (Require "NOT_OWNER")
     else if y =? 0 then Revert (Require "ZERO_ADDR")
     else Ok (tt, set_owner y st, [OwnerChanged (owner st) y])).
  { intros st x y.
    unfold setOwner, onlyOwner, bind, require, gets, modify, emit, ret, revert.
    destruct (x =? owner st); simpl; [|done]. by destruct (y =? 0). }
  split; [apply Hs|]. intros s' l. rewrite Hs.
  destruct (Z.eqb_spec c (owner s)) as [Hc|Hc]; simpl; [|done].
  destruct (Z.eqb_spec o 0) as [Ho|Ho]; [done|].
  intros [= <- <-]. simpl.
  do 4 (split; [done|]). split; [by rewrite Hc|]. split.
  - intros Hne x. rewrite Hs. simpl.
    by replace (c =? o) with false
      by (symmetry; apply Z.eqb_neq; congruence).
  - intros Hc0. rewrite Hs. simpl. rewrite Z.eqb_refl. simpl.
    replace (c =? 0) with false by (symmetry; by apply Z.eqb_neq).
    split; [done|]. intros x Hx. rewrite Hs. simpl.
    rewrite Z.eqb_refl. simpl.
    by replace (x =? 0) with false by (symmetry; by apply Z.eqb_neq).
Qed.

End MVPMore.

(** ** The page's actions and its reads effect *)
Section PageMore.
Import Page PageEnvSetup.
Local Open Scope act_scope.





(** X13. The slider's two ends: at 100% [onWithdraw] redeems every share the
    user holds; below 100% it redeems [floor(s * p / 100)], which is fewer
    than [s]; and a position so small that [s * p < 100] still sends a
    redeem, for zero shares.  The request is spelled out: the vault's
    address and ABI, function [redeem], the share count, then the account as
    receiver and as owner. *)
Theorem onWithdraw_rounding_edges
    (w : World) (cfg : Config) (r st : State) (account : string) (s p : Z) :
  wallet r = true → account_address r = Some account →
  nonempty account = true → hasConfig cfg = true →
  userShares r = Some s → 0 < s → withdrawPct r = p → 1 ≤ p ≤ 100 →
  (p = 100 →
     requests (onWithdraw w cfg r) st
       = [writeContract account
            {| address := VAULT_ADDR cfg; abi := abiVault;
               functionName := "redeem";
               args := [Uint256 s; Address account; Address account] |}]) ∧
  (s * p < 100 →
     requests (onWithdraw w cfg r) st
       = [writeContract account
            {| address := VAULT_ADDR cfg; abi := abiVault;
               functionName := "redeem";
               args := [Uint256 0; Address account; Address account] |}]) ∧
  (p < 100 → ∃ shares,
     requests (onWithdraw w cfg r) st
       = [writeContract account
            {| address := VAULT_ADDR cfg; abi := abiVault;
               functionName := "redeem";
               args := [Uint256 shares; Address account;
                        Address account] |}] ∧
     shares = s * p / 100 ∧ 0 ≤ shares < s).
Proof.
  intros Hw Ha Hne Hcfg Hs Hpos Hp Hrange. unfold requests.
  rewrite (onWithdraw_unfold w cfg r st account s) by (try done; lia).
  simpl. rewrite Hp, Z.quot_div_nonneg by lia. split; [|split].
  - intros ->. by rewrite Z.div_mul by lia.
  - intros Hsmall. by rewrite Z.div_small by lia.
  - intros Hlt. eexists. split; [done|]. split; [done|].
    split; [apply Z.div_pos; lia | apply Z.div_lt_upper_bound; nia].
Qed.

Lemma onWithdraw_rounding_edges_witness :
  requests (onWithdraw sample_world sample_config dust_render) dust_render
  = [writeContract "0xabc"
       {| address := "0xvault"; abi := abiVault; functionName := "redeem";
          args := [Uint256 0; Address "0xabc"; Address "0xabc"] |}].
Proof.
  assert (Hrange : 1 ≤ 25 ≤ 100) by lia.
  assert (Hpos : 0 < 3) by lia.
  destruct (onWithdraw_rounding_edges sample_world sample_config dust_render
              dust_render "0xabc" 3 25 eq_refl eq_refl eq_refl eq_refl
              eq_refl Hpos eq_refl Hrange) as (_ & Hdust & _).
  apply Hdust. lia.
Defined.




End PageMore.

(** ** From the server's environment to the page's constants *)
Section EnvPlumbing.
Import Page PageEnvSetup.

Lemma readPublicEnv_candidates (h : Host) (key : string) :
  readPublicEnv h key = first_nonempty_string (candidates h key).
Proof.
  unfold readPublicEnv.
  rewrite read_process_env_spec, read_runtime_env_spec.
  unfold candidates. simpl.
  destruct (nonempty_string _); [done|].
  by destruct (match nonempty_string _ with Some _ => _ | None => _ end).
Qed.

Lemma runtimeEnv_get (server : EnvRecord) (k : string) :
  record_get (runtimeEnv server) k =
    if bool_decide (k ∈ [K_RPC; K_VAULT; K_USDC])
    then Some (or_empty (record_get server k)) else None.
Proof.
  unfold record_get at 1, runtimeEnv.
  destruct (decide (k = K_RPC)) as [->|H1];
    [by rewrite lookup_insert_eq|rewrite lookup_insert_ne by done].
  destruct (decide (k = K_VAULT)) as [->|H2];
    [by rewrite lookup_insert_eq|rewrite lookup_insert_ne by done].
  destruct (decide (k = K_USDC)) as [->|H3];
    [by rewrite lookup_insert_eq|rewrite lookup_insert_ne by done].
  rewrite lookup_empty. simpl. rewrite bool_decide_eq_false_2; [done|].
  intros Hin. repeat (apply elem_of_cons in Hin as [Hin|Hin]; [done|]).
  by apply elem_of_nil in Hin.
Qed.

Lemma or_empty_nonempty (v : option string) :
  nonempty (or_empty v) = true ↔ ∃ s, v = Some s ∧ nonempty s = true.
Proof.
  destruct v as [s|]; simpl.
  - destruct (nonempty s) eqn:Hs; [rewrite Hs; split; eauto|].
    split; [done|]. intros (s' & [= <-] & Hs'). congruence.
  - split; [done|]. by intros (s & ? & _).
Qed.

(** The last two sources do not depend on what [__ENV__] holds. *)
Lemma global_get_nonempty_string (g1 g2 : GlobalEnv) (k : string) :
  globals g1 = globals g2 →
  nonempty_string (global_get g1 k) = nonempty_string (global_get g2 k).
Proof.
  intros Hg. unfold global_get. rewrite Hg.
  destruct (String.eqb k "__ENV__"); [by destruct (__ENV__ g1), (__ENV__ g2)|].
  destruct (String.eqb k "__NEXT_PUBLIC__"); [|done].
  by destruct (__NEXT_PUBLIC__ g1), (__NEXT_PUBLIC__ g2).
Qed.

(** On a server environment that is safe to print the script runs, and
    assigns [runtimeEnv]. *)
Lemma inject_safe (server : EnvRecord) (h : Host) :
  script_safe server = true →
  inject server h = Some (assign_ENV server h).
Proof. unfold inject. by intros ->. Qed.

(** What [readPublicEnv] finds on a browser page once the layout's
    assignment has run. *)
Lemma layout_read (server : EnvRecord) (h : Host) (k : string) :
  process h = None →
  readPublicEnv (assign_ENV server h) k =
    if bool_decide (k ∈ [K_RPC; K_VAULT; K_USDC])
       && nonempty (or_empty (record_get server k))
    then Some (or_empty (record_get server k))
    else readPublicEnv (without_ENV h) k.
Proof.
  intros Hproc. rewrite !readPublicEnv_candidates. unfold candidates.
  simpl. rewrite Hproc. simpl. rewrite runtimeEnv_get.
  rewrite (global_get_nonempty_string _ (globalThis (without_ENV h)) k)
    by done.
  destruct (bool_decide _); simpl; [|done]. unfold nonempty.
  by destruct (String.length _ =? 0)%nat.
Qed.



Lemma bare_browser_reads_nothing (k : string) :
  readPublicEnv (without_ENV bare_browser) k = None.
Proof.
  rewrite readPublicEnv_candidates. unfold candidates, global_get. simpl.
  by destruct (String.eqb k "__ENV__"), (String.eqb k "__NEXT_PUBLIC__").
Qed.

(** X17. The page's constants: [RPC] is never the empty string, on any
    host, and is the built-in default exactly when no source yields one;
    the raw vault and USDC addresses are empty exactly when no source yields
    them.  On a fresh browser page served by the layout, when the script the
    layout prints runs (no server value holds a [<]), they are the server's
    values: the server's address (or empty), and for [RPC] the server's URL
    or, when the server has none, the default. *)
Theorem page_constants (server : EnvRecord) (h : Host) :
  RPC h ≠ "" ∧
  (readPublicEnv h K_RPC = None → RPC h = "https://rpc.supra.com") ∧
  (VAULT_ADDR_RAW h = "" ↔ readPublicEnv h K_VAULT = None) ∧
  (USDC_ADDR_RAW h = "" ↔ readPublicEnv h K_USDC = None) ∧
  (script_safe server = true →
   ∃ page, inject server bare_browser = Some page ∧
     VAULT_ADDR_RAW page = or_empty (record_get server K_VAULT) ∧
     USDC_ADDR_RAW page = or_empty (record_get server K_USDC) ∧
     RPC page
       = (if nonempty (or_empty (record_get server K_RPC))
          then or_empty (record_get server K_RPC)
          else "https://rpc.supra.com")).
Proof.
  assert (Hne : ∀ k, readPublicEnv h k ≠ Some "")
    by (intros k; rewrite readPublicEnv_candidates;
        apply first_nonempty_string_not_empty).
  assert (Hraw : ∀ k, nullish_or (readPublicEnv h k) "" = ""
                      ↔ readPublicEnv h k = None).
  { intros k. specialize (Hne k).
    destruct (readPublicEnv h k) as [s|]; simpl; [|done].
    split; [intros ->; done | done]. }
  assert (Hempty : ∀ v, nonempty (or_empty v) = false → or_empty v = "").
  { intros [s|]; simpl; [|done]. destruct (nonempty s) eqn:Hs; [|done].
    by rewrite Hs. }
  split.
  { unfold RPC. specialize (Hne K_RPC).
    destruct (readPublicEnv h K_RPC) as [s|]; simpl; [congruence|done]. }
  split; [by unfold RPC; intros ->|].
  split; [apply Hraw|]. split; [apply Hraw|].
  intros Hsafe. exists (assign_ENV server bare_browser).
  split; [by apply inject_safe|].
  assert (Hpage : ∀ k, k ∈ [K_RPC; K_VAULT; K_USDC] →
            readPublicEnv (assign_ENV server bare_browser) k
            = if nonempty (or_empty (record_get server k))
              then Some (or_empty (record_get server k)) else None).
  { intros k Hk. rewrite layout_read by done.
    rewrite bool_decide_eq_true_2 by done. simpl.
    destruct (nonempty _); [done|]. apply bare_browser_reads_nothing. }
  unfold VAULT_ADDR_RAW, USDC_ADDR_RAW, RPC.
  rewrite !Hpage
    by (repeat first [apply list_elem_of_here | apply list_elem_of_further]).
  split; [|split].
  - destruct (nonempty _) eqn:Hv; simpl; [done|]. symmetry. by apply Hempty.
  - destruct (nonempty _) eqn:Hv; simpl; [done|]. symmetry. by apply Hempty.
  - by destruct (nonempty _).
Qed.

(** X18. The dev-only block at the end of the page does nothing where
    [process] is not defined or [NODE_ENV] is 'production'.  Anywhere else it
    replaces [__ENV__]: afterwards 'TEST_KEY' reads 'ok' (its second
    assertion) unless [process.env] sets that key itself, and every other
    key reads as if [__ENV__] had been removed, whatever had been injected
    there. *)
Theorem dev_block_replaces_ENV (h : Host) (k : string) :
  (dev_mode h = false → dev_sanity_block h = h) ∧
  (dev_mode h = true →
     (try_catch (read_process_env h "TEST_KEY") = None →
      readPublicEnv (dev_sanity_block h) "TEST_KEY" = Some "ok") ∧
     (k ≠ "TEST_KEY" →
      readPublicEnv (dev_sanity_block h) k = readPublicEnv (without_ENV h) k)).
Proof.
  assert (Hblock : dev_sanity_block h =
            if dev_mode h then
              {| process := process h;
                 globalThis :=
                   {| __ENV__ := Some {[ "TEST_KEY" := Some "ok" ]};
                      __NEXT_PUBLIC__ := __NEXT_PUBLIC__ (globalThis h);
                      globals := globals (globalThis h) |} |}
            else h).
  { unfold dev_sanity_block, dev_mode.
    destruct (process h) as [[[e|]]|]; simpl; try done.
    destruct (record_get e "NODE_ENV") as [v|]; [|done].
    by destruct (String.eqb v "production"). }
  rewrite Hblock. split; [by intros ->|]. intros ->. split.
  - intros Hproc. unfold readPublicEnv.
    replace (read_process_env _ "TEST_KEY")
      with (read_process_env h "TEST_KEY") by done.
    by rewrite Hproc.
  - intros Hk. rewrite !readPublicEnv_candidates. unfold candidates. simpl.
    unfold record_get. rewrite lookup_singleton_ne by done. simpl.
    by rewrite (global_get_nonempty_string _ (globalThis (without_ENV h)) k).
Qed.

End EnvPlumbing.

(** ** The wallet hook and the actions it gates *)
Section WalletHook.
Import Page Wallet.

(** X19. Connecting from a disconnected hook makes the page connected
    exactly when there is an injected provider and its first account is a
    non-empty string, and the wallet client is then set.  The callback fails
    only when the account request is rejected: a missing provider is
    reported in [error] without any request, and a failing chain-id request
    is swallowed.  While the page is not connected, [onDeposit] and
    [onWithdraw] send nothing. *)
Theorem connect_gates_the_actions
    (b : Browser) (hs : HookState) (st : State) :
  address hs = None →
  let hs' := snd (fst (connect b hs)) in
  (connected (render_with hs' st) = true
     ↔ ∃ eth acc rest, ethereum b = Some eth ∧
         request_accounts eth = Some (acc :: rest) ∧ nonempty acc = true) ∧
  (connected (render_with hs' st) = true → wallet hs' = true) ∧
  (fst (fst (connect b hs)) = Failed
     ↔ ∃ eth, ethereum b = Some eth ∧ request_accounts eth = None) ∧
  (ethereum b = None →
     connect b hs
     = (Done tt, setError (Some "No injected wallet found") hs, [])) ∧
  (connected (render_with hs' st) = false →
     ∀ w cfg,
       onDeposit w cfg (render_with hs' st) st = (Done tt, st, []) ∧
       onWithdraw w cfg (render_with hs' st) st = (Done tt, st, [])).
Proof.
  intros Hdisc hs'. split; [|split; [|split; [|split]]].
  - unfold hs', connect, connected, render_with.
    destruct (ethereum b) as [eth|]; simpl.
    + destruct (request_accounts eth) as [[|acc rest]|] eqn:Hacc; simpl.
      * destruct (request_chainId eth); simpl;
          (split; [done | by intros (? & ? & ? & [= <-] & ? & _); simplify_eq]).
      * destruct (request_chainId eth); simpl;
          (split; [intros Hne; by exists eth, acc, rest
                  | intros (? & ? & ? & [= <-] & ? & Hne); by simplify_eq]).
      * rewrite Hdisc.
        split; [done | by intros (? & ? & ? & [= <-] & ? & _); simplify_eq].
    + rewrite Hdisc. split; [done | by intros (? & ? & ? & ? & _)].
  - unfold hs', connect, connected, render_with.
    destruct (ethereum b) as [eth|]; simpl; [|by rewrite Hdisc].
    destruct (request_accounts eth) as [accounts|]; simpl;
      [|by rewrite Hdisc].
    by destruct (request_chainId eth).
  - unfold connect. destruct (ethereum b) as [eth|]; simpl.
    + destruct (request_accounts eth) as [accounts|] eqn:Hacc; simpl.
      * destruct (request_chainId eth); simpl;
          (split; [done | by intros (? & [= <-] & ?); simplify_eq]).
      * split; [intros _; by exists eth | done].
    + split; [done | by intros (? & ? & _)].
  - intros Hnone. unfold connect. by rewrite Hnone.
  - intros Hnot w cfg. unfold onDeposit, onWithdraw. rewrite Hnot. simpl.
    by rewrite !orb_true_r.
Qed.

Lemma connect_gates_the_actions_witness :
  connected (render_with (snd (fst (connect good_browser initial_hook)))
                         initial_state) = true ∧
  fst (fst (connect declining_browser initial_hook)) = Failed.
Proof.
  destruct (connect_gates_the_actions good_browser initial_hook initial_state
              eq_refl) as (Hgood & _).
  destruct (connect_gates_the_actions declining_browser initial_hook
              initial_state eq_refl) as (_ & _ & Hfail & _).
  split.
  - apply Hgood. eexists _, "0xabc", []. split; [reflexivity|]. by split.
  - apply Hfail. eexists. split; reflexivity.
Defined.

(** X20. Disconnecting clears the address and the wallet client and nothing
    else (the chain id and the error stay); from then on [onDeposit] and
    [onWithdraw] send nothing, and the next run of the reads effect, if its
    two reads go through, clears the balance and the shares it had stored
    for the user. *)
Theorem disconnect_stops_the_actions
    (hs : HookState) (st : State) (w : World) (cfg : Config) :
  let r := render_with (disconnect hs) st in
  address (disconnect hs) = None ∧ wallet (disconnect hs) = false ∧
  chainId (disconnect hs) = chainId hs ∧ error (disconnect hs) = error hs ∧
  onDeposit w cfg r st = (Done tt, st, []) ∧
  onWithdraw w cfg r st = (Done tt, st, []) ∧
  (∀ dec ta,
     hasConfig cfg = true →
     read_result w (decimals_call cfg) = Some dec →
     read_result w (totalAssets_call cfg) = Some ta →
     userShares (snd (fst (readsEffect w cfg r st))) = None ∧
     usdcBal (snd (fst (readsEffect w cfg r st))) = None).
Proof.
  intros r. do 6 (split; [done|]).
  intros dec ta Hcfg Hdec Hta.
  unfold readsEffect. rewrite Hcfg. simpl.
  unfold try_warn, bind, await_read, setDecimals, setTvl.
  by rewrite Hdec, Hta.
Qed.

End WalletHook.
